(** * google-maps-scraper: job ingestion handler and lifecycle coordinator

    A shallow embedding of [web/handlers/jobs.go], [web/server/server.go] and
    the [main] package, with the parts of the Go libraries they call
    ([strings], [errors]/[fmt], [google/uuid], [encoding/json], [net/http]). *)

From Stdlib Require Import ZArith Lia List Bool Ascii String.
From Stdlib Require Import DecimalString DecimalPos DecimalZ.
From Stdlib.Strings Require Import Byte.
From stdpp Require Import base gmap strings list vector functions.
Import ListNotations.

Local Open Scope Z_scope.

(** ** errors / fmt *)

Module errors.

(** Go [error] values. The sentinels are constructors of their own: Go compares
    errors by identity, and an [errors.New] with the same text is a different
    value. *)
Inductive error :=
| ErrServerClosed                          (* http.ErrServerClosed *)
| ErrInvalidRunMode                        (* runner.ErrInvalidRunMode *)
| errorString (s : string)                 (* errors.New, fmt.Errorf without %w *)
| wrapError (msg : string) (err : error).  (* fmt.Errorf with one %w *)

(** Modelled from the spec: the text of [runner.ErrInvalidRunMode], which is
    declared in the runner package (the spec calls it the "invalid run mode"
    error). *)
Definition ErrInvalidRunMode_text : string := "invalid run mode".

Definition Error (e : error) : string :=
  match e with
  | ErrServerClosed => "http: Server closed"
  | ErrInvalidRunMode => ErrInvalidRunMode_text
  | errorString s => s
  | wrapError msg _ => msg
  end.

Definition Unwrap (e : error) : option error :=
  match e with
  | wrapError _ inner => Some inner
  | _ => None
  end.

#[global] Instance error_eq_dec : EqDecision error.
Proof. solve_decision. Defined.

(** [errors.Is]: walks the [Unwrap] chain comparing with [==]. *)
Fixpoint Is (e target : error) : bool :=
  if decide (e = target) then true
  else match e with
       | wrapError _ inner => Is inner target
       | _ => false
       end.

(** A call's [(T, error)] result. *)
Inductive Result (A : Type) :=
| Ok (a : A)
| Err (e : error).
#[global] Arguments Ok {A} a.
#[global] Arguments Err {A} e.

End errors.
Export errors.

(** ** strings *)

Module strings.

(** [asciiSpace]: tab, newline, vertical tab, form feed, carriage return, space. *)
Definition asciiSpace (c : ascii) : bool :=
  let n := N_of_ascii c in
  ((9 <=? n) && (n <=? 13) || (n =? 32))%N.

(** The two-byte UTF-8 encodings of [unicode.IsSpace] runes: U+0085, U+00A0. *)
Definition space2 (a b : ascii) : bool :=
  let '(a, b) := (N_of_ascii a, N_of_ascii b) in
  ((a =? 0xC2) && ((b =? 0x85) || (b =? 0xA0)))%N.

(** The three-byte ones: U+1680, U+2000..U+200A, U+2028, U+2029, U+202F,
    U+205F, U+3000. *)
Definition space3 (a b c : ascii) : bool :=
  let '(a, b, c) := (N_of_ascii a, N_of_ascii b, N_of_ascii c) in
  ((a =? 0xE1) && (b =? 0x9A) && (c =? 0x80)
   || (a =? 0xE2) && (b =? 0x80)
      && ((0x80 <=? c) && (c <=? 0x8A) || (c =? 0xA8) || (c =? 0xA9) || (c =? 0xAF))
   || (a =? 0xE2) && (b =? 0x81) && (c =? 0x9F)
   || (a =? 0xE3) && (b =? 0x80) && (c =? 0x80))%N.

(** [TrimLeftFunc(s, unicode.IsSpace)]: drops the white-space runes the
    string starts with. A byte that starts no white-space rune (an invalid
    encoding decodes to U+FFFD) stops the scan. *)
Fixpoint TrimLeftSpace (s : string) : string :=
  match s with
  | EmptyString => EmptyString
  | String a s1 =>
    if asciiSpace a then TrimLeftSpace s1
    else match s1 with
         | String b s2 =>
           if space2 a b then TrimLeftSpace s2
           else match s2 with
                | String c s3 => if space3 a b c then TrimLeftSpace s3 else s
                | EmptyString => s
                end
         | EmptyString => s
         end
  end.

(** The same scan from the end ([DecodeLastRuneInString]), on the reversed
    bytes. *)
Fixpoint dropSpaceRev (l : list ascii) : list ascii :=
  match l with
  | [] => []
  | a :: l1 =>
    if asciiSpace a then dropSpaceRev l1
    else match l1 with
         | b :: l2 =>
           if space2 b a then dropSpaceRev l2
           else match l2 with
                | c :: l3 => if space3 c b a then dropSpaceRev l3 else l
                | [] => l
                end
         | [] => l
         end
  end.

Definition TrimRightSpace (s : string) : string :=
  string_of_list_ascii (rev (dropSpaceRev (rev (list_ascii_of_string s)))).

(** [strings.TrimSpace]. *)
Definition TrimSpace (s : string) : string :=
  TrimRightSpace (TrimLeftSpace s).

(** [strings.Join]. *)
Fixpoint Join (elems : list string) (sep : string) : string :=
  match elems with
  | [] => EmptyString
  | [x] => x
  | x :: rest => x +:+ sep +:+ Join rest sep
  end.

End strings.

(** ** google/uuid *)

Module uuid.

(** [type UUID [16]byte]. *)
Definition UUID : Type := vec byte 16.

Definition hextable : string := "0123456789abcdef".

Definition hexdigit (n : N) : ascii :=
  match String.get (N.to_nat n) hextable with
  | Some c => c
  | None => "0"%char
  end.

(** [hex.Encode]: two digits per byte, high nibble first. *)
Fixpoint hex_Encode (src : list byte) : string :=
  match src with
  | [] => EmptyString
  | v :: rest =>
    String (hexdigit (N.shiftr (Byte.to_N v) 4))
      (String (hexdigit (N.land (Byte.to_N v) 0x0f)) (hex_Encode rest))
  end.

(** [UUID.String]: xxxxxxxx-xxxx-xxxx-xxxx-xxxxxxxxxxxx ([encodeHex]). *)
Definition UUID_String (u : UUID) : string :=
  let b := vec_to_list u in
  hex_Encode (take 4 b) +:+ "-" +:+
  hex_Encode (take 2 (drop 4 b)) +:+ "-" +:+
  hex_Encode (take 2 (drop 6 b)) +:+ "-" +:+
  hex_Encode (take 2 (drop 8 b)) +:+ "-" +:+
  hex_Encode (drop 10 b).

(** The random source behind [uuid.New]: the value of the n-th call in the
    process, and the number of calls made so far. *)
Record Source := {
  nth_uuid : nat -> UUID;
  drawn : nat;
}.

Definition New (src : Source) : UUID * Source :=
  (nth_uuid src (drawn src),
   {| nth_uuid := nth_uuid src; drawn := S (drawn src) |}).

(** The next [k] calls yield pairwise distinct values. *)
Definition fresh (src : Source) (k : nat) : Prop :=
  NoDup (map (nth_uuid src) (seq (drawn src) k)).

End uuid.

(** ** encoding/json *)

Module json.

(** A JSON document, as far as the responses need it: an object whose
    members are strings, in the order the encoder emits them. The encoder's
    output is kept as the document it denotes. *)
Definition Object : Type := list (string * string).

(** What [json.Marshal] does with a value of type [A] (the [interface{}]
    argument): the document, or the encoder's error. *)
Class Marshaler (A : Type) := Marshal : A -> Result Object.

(** A string field of a struct: its key and value, left out when the tag
    says [omitempty] and the string is empty. *)
Definition field (key : string) (omitempty : bool) (v : string) : Object :=
  if omitempty && String.eqb v "" then [] else [(key, v)].

Definition keys (o : Object) : list string := map fst o.

Definition member (key : string) (o : Object) : option string :=
  snd <$> find (fun m => String.eqb (fst m) key) o.

End json.

(** ** net/http *)

Module http.

Definition MethodPost : string := "POST".
Definition StatusCreated : Z := 201.
Definition StatusBadRequest : Z := 400.
Definition StatusMethodNotAllowed : Z := 405.
Definition StatusInternalServerError : Z := 500.
Definition StatusOK : Z := 200.

(** The state behind an [http.ResponseWriter]: the header map, the status
    line once it is sent, and what was written to the body. *)
Record ResponseWriter := {
  Header : gmap string (list string);
  Status : option Z;
  Body : list json.Object;
}.

Definition newResponseWriter : ResponseWriter :=
  {| Header := ∅; Status := None; Body := [] |}.

(** [w.Header().Set(key, value)]. *)
Definition Header_Set (key value : string) (w : ResponseWriter) : ResponseWriter :=
  {| Header := <[key := [value]]> (Header w); Status := Status w; Body := Body w |}.

(** [w.WriteHeader(code)]: the first call sends the status line, a later one
    is ignored. *)
Definition WriteHeader (code : Z) (w : ResponseWriter) : ResponseWriter :=
  match Status w with
  | None => {| Header := Header w; Status := Some code; Body := Body w |}
  | Some _ => w
  end.

(** [w.Write(data)]: sends status 200 first when no status was sent. *)
Definition Write (data : json.Object) (w : ResponseWriter) : ResponseWriter :=
  let w := WriteHeader StatusOK w in
  {| Header := Header w; Status := Status w; Body := Body w ++ [data] |}.

End http.

(** ** context *)

Module context.

(** The contexts the program handles: the root context of [main]
    ([context.WithCancel(context.Background())]) and the context of an
    HTTP request. *)
Inductive Context :=
| Root
| OfRequest (n : nat).

End context.
Export context.

(** ** gmaps: jobs and the queue provider *)

Module gmaps.

(** Modelled from the spec: [gmaps.NewGmapJob] and the job type are declared
    outside the sources at hand; a job is the value of section 3 of the
    specification, holding the seven arguments of the constructor. *)
Record GmapJob := {
  ID : string;
  LangCode : string;
  Query : string;
  MaxDepth : Z;
  ExtractEmail : bool;
  GeoCoordinates : string;
  Zoom : Z;
}.

Definition NewGmapJob (id langCode query : string) (maxDepth : Z)
    (extractEmail : bool) (geoCoordinates : string) (zoom : Z) : GmapJob :=
  {| ID := id; LangCode := langCode; Query := query; MaxDepth := maxDepth;
     ExtractEmail := extractEmail; GeoCoordinates := geoCoordinates;
     Zoom := zoom |}.

(** [type Provider interface { Push(ctx, job) error }], over the state [Q] of
    the backing queue. *)
Class Provider (Q : Type) := Push : Context -> GmapJob -> Q -> option error * Q.

End gmaps.

(** ** zap *)

Module zap.

Inductive Level := InfoLevel | ErrorLevel.

Record Entry := {
  level : Level;
  message : string;
  fields : list (string * string);
}.

(** A logger is the list of fields [With] has attached to it. *)
Definition Logger : Type := list (string * string).

Definition With (l : Logger) (fs : list (string * string)) : Logger := l ++ fs.

Definition entry (l : Logger) (lv : Level) (msg : string)
    (fs : list (string * string)) : Entry :=
  {| level := lv; message := msg; fields := l ++ fs |}.

End zap.

(** ** web/handlers/jobs.go *)

Module handlers.

Record CreateJobRequest := {
  Query : string;          (* json:"query" *)
  Language : string;       (* json:"language" *)
  MaxDepth : Z;            (* json:"max_depth" *)
  ExtractEmail : bool;     (* json:"extract_email" *)
  GeoCoords : string;      (* json:"geo_coordinates" *)
  Zoom : Z;                (* json:"zoom" *)
}.

Record CreateJobResponse := {
  JobID : string;          (* json:"job_id" *)
  Status : string;         (* json:"status" *)
  Message : string;        (* json:"message,omitempty" *)
  RequestID : string;      (* json:"request_id" *)
}.

(** [json.Marshal] of a [CreateJobResponse]: the fields in declaration order,
    under their tags. Encoding a struct of strings cannot fail. A member's
    value stands for the JSON string the encoder writes for the field; that
    string denotes the field itself when the field is valid UTF-8 (every
    ASCII text is), and has U+FFFD in place of any other byte. *)
#[global] Instance CreateJobResponse_Marshaler : json.Marshaler CreateJobResponse :=
  fun r =>
    Ok (json.field "job_id" false (JobID r)
        ++ json.field "status" false (Status r)
        ++ json.field "message" true (Message r)
        ++ json.field "request_id" false (RequestID r)).

(** [(r *CreateJobRequest) validate()]. *)
Definition validate (r : CreateJobRequest) : option error :=
  let errors : list string := [] in
  let errors :=
    if String.eqb (strings.TrimSpace (Query r)) ""
    then errors ++ ["query is required"%string] else errors in
  let errors :=
    if String.eqb (strings.TrimSpace (Language r)) ""
    then errors ++ ["language is required"%string] else errors in
  let errors :=
    if (MaxDepth r <? 0) || (MaxDepth r >? 10)
    then errors ++ ["max_depth must be between 0 and 10"%string] else errors in
  let errors :=
    if (Zoom r <? 0) || (Zoom r >? 21)
    then errors ++ ["zoom must be between 0 and 21"%string] else errors in
  if (0 <? length errors)%nat
  then Some (errorString ("validation failed: " +:+ strings.Join errors ", "))
  else None.

(** An incoming request, as the handler reads it: the method, the request's
    context, and what [json.NewDecoder(r.Body).Decode(&req)] yields for its
    body. *)
Record Request := {
  Method : string;
  Ctx : Context;
  Decode : Result CreateJobRequest;
}.

(** [JobHandler]: the provider is the queue of the world below. *)
Record JobHandler := {
  logger : zap.Logger;
}.

(** What a handler call reads and changes besides its response writer: the
    random source of [uuid.New], the provider's queue and the log. *)
Record World (Q : Type) := {
  uuids : uuid.Source;
  queue : Q;
  logged : list zap.Entry;
}.
Arguments uuids {Q} _.
Arguments queue {Q} _.
Arguments logged {Q} _.

Definition M (Q A : Type) : Type := World Q -> A * World Q.

Definition ret {Q A} (a : A) : M Q A := fun σ => (a, σ).

Definition bind {Q A B} (m : M Q A) (k : A -> M Q B) : M Q B :=
  fun σ => let '(a, σ') := m σ in k a σ'.

Notation "x <- m ;; k" := (bind m (fun x => k))
  (at level 20, m at level 99, k at level 200, only parsing).
Notation "m ;; k" := (bind m (fun _ => k))
  (at level 100, k at level 200, only parsing, right associativity).

(** [uuid.New().String()]. *)
Definition uuid_New_String {Q} : M Q string :=
  fun σ =>
    let '(u, src) := uuid.New (uuids σ) in
    (uuid.UUID_String u, {| uuids := src; queue := queue σ; logged := logged σ |}).

Definition log {Q} (e : zap.Entry) : M Q unit :=
  fun σ => (tt, {| uuids := uuids σ; queue := queue σ; logged := logged σ ++ [e] |}).

(** [h.provider.Push(ctx, job)]. *)
Definition provider_Push {Q} `{gmaps.Provider Q} (ctx : Context) (job : gmaps.GmapJob)
  : M Q (option error) :=
  fun σ =>
    let '(err, q) := gmaps.Push ctx job (queue σ) in
    (err, {| uuids := uuids σ; queue := q; logged := logged σ |}).

(** [(h *JobHandler) respondWithJSON(w, code, payload)]. *)
Definition respondWithJSON {Q A} `{json.Marshaler A} (h : JobHandler)
    (w : http.ResponseWriter) (code : Z) (payload : A) : M Q http.ResponseWriter :=
  match json.Marshal payload with
  | Err err =>
    log (zap.entry (logger h) zap.ErrorLevel "failed to marshal response"
           [("error", Error err)]);;
    ret (http.WriteHeader http.StatusInternalServerError w)
  | Ok response =>
    let w := http.Header_Set "Content-Type" "application/json" w in
    let w := http.WriteHeader code w in
    ret (http.Write response w)
  end.

(** [(h *JobHandler) respondWithError(w, code, message, requestID)]. *)
Definition respondWithError {Q} (h : JobHandler) (w : http.ResponseWriter)
    (code : Z) (message requestID : string) : M Q http.ResponseWriter :=
  respondWithJSON h w code
    {| JobID := ""; Status := "error"; Message := message; RequestID := requestID |}.

(** [(h *JobHandler) CreateJob(w, r)]. *)
Definition CreateJob {Q} `{gmaps.Provider Q} (h : JobHandler)
    (w : http.ResponseWriter) (r : Request) : M Q http.ResponseWriter :=
  requestID <- uuid_New_String;;
  let logger := zap.With (logger h)
                 [("request_id", requestID); ("handler", "CreateJob")] in
  if negb (String.eqb (Method r) http.MethodPost) then
    respondWithError h w http.StatusMethodNotAllowed "Method not allowed" requestID
  else
    match Decode r with
    | Err err =>
      log (zap.entry logger zap.ErrorLevel "failed to decode request body"
             [("error", Error err)]);;
      respondWithError h w http.StatusBadRequest "Invalid request body" requestID
    | Ok req =>
      match validate req with
      | Some err =>
        log (zap.entry logger zap.ErrorLevel "request validation failed"
               [("error", Error err)]);;
        respondWithError h w http.StatusBadRequest (Error err) requestID
      | None =>
        jobID <- uuid_New_String;;
        let job := gmaps.NewGmapJob jobID (Language req) (Query req)
                     (MaxDepth req) (ExtractEmail req) (GeoCoords req) (Zoom req) in
        perr <- provider_Push (Ctx r) job;;
        match perr with
        | Some err =>
          log (zap.entry logger zap.ErrorLevel "failed to push job"
                 [("error", Error err); ("job_id", jobID)]);;
          respondWithError h w http.StatusInternalServerError
            "Failed to create job" requestID
        | None =>
          log (zap.entry logger zap.InfoLevel "job created successfully"
                 [("job_id", jobID); ("query", Query req)]);;
          respondWithJSON h w http.StatusCreated
            {| JobID := jobID; Status := "created";
               Message := "Job created successfully"; RequestID := requestID |}
        end
      end
    end.

End handlers.

(** ** runner: what [main] uses of the runner packages *)

Module runner.

(** [runner.Config]: the two fields [main] reads. *)
Record Config := {
  Dsn : string;
  RunMode : Z;
}.

(** [runner.Runner], an interface of two methods; a runner is what its
    methods return when they are called with a context. *)
Record Runner := {
  Run : Context -> option error;
  Close : Context -> option error;
}.

(** The run-mode constants, declared in the runner package outside the
    sources at hand: their values are parameters. *)
Record RunModes := {
  RunModeFile : Z;
  RunModeDatabase : Z;
  RunModeDatabaseProduce : Z;
  RunModeInstallPlaywright : Z;
  RunModeWeb : Z;
  RunModeAwsLambda : Z;
  RunModeAwsLambdaInvoker : Z;
}.



(** The constructors of the concrete runners, each returning
    [(runner.Runner, error)]. *)
Record Constructors := {
  filerunner_New : Config -> Result Runner;
  databaserunner_New : Config -> Result Runner;
  installplaywright_New : Config -> Result Runner;
  webrunner_New : Config -> Result Runner;
  lambdaaws_New : Config -> Result Runner;
  lambdaaws_NewInvoker : Config -> Result Runner;
}.

End runner.

(** ** fmt *)

Module fmt.

(** The verb [%d] on an integer. *)
Definition d (z : Z) : string := NilZero.string_of_int (Z.to_int z).

(** [fmt.Errorf("%w: %d", err, n)]. *)
Definition Errorf_w_d (err : error) (n : Z) : error :=
  wrapError (Error err +:+ ": " +:+ d n) err.

Definition newline : string := String (ascii_of_nat 10) EmptyString.

End fmt.

(** ** The process: events, threads and [os.Exit] *)

Module proc.

(** The three threads of the program: [main] and the two goroutines it
    starts. *)
Inductive Tid := TMain | TSignal | TServer.

#[global] Instance Tid_eq_dec : EqDecision Tid.
Proof. solve_decision. Defined.

(** What a thread does that the rest of the program or the outside can see. *)
Inductive Event :=
| EBanner                                     (* runner.Banner() *)
| ENotify                                     (* signal.Notify(sigChan, ...) *)
| EGo (g : Tid)                               (* go func() { ... }() *)
| ERecvSignal                                 (* <-sigChan returns *)
| EPrint (msg : string)                       (* log.Println, log.Printf, log.Fatal *)
| EZap (msg : string)                         (* a zap logger entry *)
| ECancel (ctx : Context)                     (* the cancel function of ctx *)
| EParseConfig                                (* runner.ParseConfig() *)
| ENewProduction                              (* zap.NewProduction() *)
| ESqlOpen (driver dsn : string) (err : option error) (* sql.Open(driver, dsn) returns *)
| ENewProvider                                (* postgres.NewProvider(db) *)
| ENewJobHandler                              (* handlers.NewJobHandler(...) *)
| EListenAndServe (addr : string)             (* s.srv.ListenAndServe() is entered *)
| EListenReturned (err : option error)        (* ... and returns *)
| EShutdown (ctx : Context)                   (* s.srv.Shutdown(ctx) *)
| EResolve (mode : Z) (err : option error)    (* runnerFactory(cfg) returns *)
| EStderr (s : string)                        (* os.Stderr.WriteString(s) *)
| ETelemetryClose                             (* runner.Telemetry().Close() *)
| ERun (r : runner.Runner) (ctx : Context)    (* r.Run(ctx) is entered *)
| ERunReturned (err : option error)           (* ... and returns *)
| EClose (r : runner.Runner) (ctx : Context)  (* r.Close(ctx) *)
| EExit (code : Z).                           (* os.Exit(code) *)

(** A thread's code either returns a value or ends the process. *)
Inductive Outcome (A : Type) :=
| Returned (a : A)
| Exited (code : Z).
Arguments Returned {A} a.
Arguments Exited {A} code.

Definition Proc (A : Type) : Type := list Event * Outcome A.

Definition ret {A} (a : A) : Proc A := ([], Returned a).

Definition bind {A B} (m : Proc A) (k : A -> Proc B) : Proc B :=
  match m with
  | (t, Returned a) => let '(t', o) := k a in (t ++ t', o)
  | (t, Exited c) => (t, Exited c)
  end.

Definition emit (e : Event) : Proc unit := ([e], Returned tt).

(** [os.Exit(code)]: nothing after it runs, deferred calls included. *)
Definition os_Exit {A} (code : Z) : Proc A := ([EExit code], Exited code).

(** [log.Fatal(v...)]: prints, then [os.Exit(1)]. *)
Definition log_Fatal {A} (msg : string) : Proc A :=
  bind (emit (EPrint msg)) (fun _ => os_Exit 1).

Definition trace {A} (p : Proc A) : list Event := fst p.

Definition exit_code {A} (p : Proc A) : option Z :=
  match snd p with
  | Exited c => Some c
  | Returned _ => None
  end.

End proc.

(** ** web/server/server.go *)

Module server.
Import proc.

Notation "x <- m ;; k" := (proc.bind m (fun x => k))
  (at level 20, m at level 99, k at level 200, only parsing).
Notation "m ;; k" := (proc.bind m (fun _ => k))
  (at level 100, k at level 200, only parsing, right associativity).

(** [Server]: the [http.Server] it wraps, as the settings [New] gives it. *)
Record Server := {
  Addr : string;
  Pattern : string;          (* the route registered on the mux *)
  ReadTimeout : Z;           (* seconds *)
  WriteTimeout : Z;
  IdleTimeout : Z;
}.

(** [server.New(handler, logger)]. *)
Definition New : Server :=
  {| Addr := ":6060"; Pattern := "/api/jobs";
     ReadTimeout := 30; WriteTimeout := 30; IdleTimeout := 120 |}.

(** [(s *Server) Start()]; [listen] is what [ListenAndServe] returns. *)
Definition Start (s : Server) (listen : option error) : Proc (option error) :=
  emit (EZap "API server is running");;
  emit (EListenAndServe (Addr s));;
  emit (EListenReturned listen);;
  ret listen.

(** [(s *Server) Shutdown(ctx)]; [res] is what [http.Server.Shutdown]
    returns. *)
Definition Shutdown (s : Server) (ctx : Context) (res : option error)
  : Proc (option error) :=
  emit (EZap "shutting down server");;
  emit (EShutdown ctx);;
  ret res.

End server.

(** ** package main *)

Module main.
Import proc runner.

Notation "x <- m ;; k" := (proc.bind m (fun x => k))
  (at level 20, m at level 99, k at level 200, only parsing).
Notation "m ;; k" := (proc.bind m (fun _ => k))
  (at level 100, k at level 200, only parsing, right associativity).

(** What the program reads from outside: the constants and constructors of
    the runner packages, the parsed configuration, and what the calls into
    [database/sql] and [net/http] return. *)
Record Env := {
  modes : RunModes;
  news : Constructors;
  ParseConfig : Config;
  sql_Open : string -> string -> option error;
  ListenAndServe : option error;
}.

(** [runnerFactory(cfg)]. *)
Definition runnerFactory (m : RunModes) (c : Constructors) (cfg : Config)
  : Result Runner :=
  let mode := RunMode cfg in
  if mode =? RunModeFile m then filerunner_New c cfg
  else if (mode =? RunModeDatabase m) || (mode =? RunModeDatabaseProduce m)
  then databaserunner_New c cfg
  else if mode =? RunModeInstallPlaywright m then installplaywright_New c cfg
  else if mode =? RunModeWeb m then webrunner_New c cfg
  else if mode =? RunModeAwsLambda m then lambdaaws_New c cfg
  else if mode =? RunModeAwsLambdaInvoker m then lambdaaws_NewInvoker c cfg
  else Err (fmt.Errorf_w_d ErrInvalidRunMode mode).

(** The first goroutine of [main]: waits for a signal, then cancels. *)
Definition signalTask : Proc unit :=
  emit ERecvSignal;;
  emit (EPrint "Received signal, shutting down...");;
  emit (ECancel Root).

(** The second goroutine of [main]: the web server. *)
Definition serverTask (E : Env) : Proc unit :=
  let srv := server.New in
  err <- server.Start srv (ListenAndServe E);;
  match err with
  | Some e =>
    if decide (e = ErrServerClosed) then ret tt
    else
      emit (EPrint ("server error: " +:+ Error e));;
      emit (ECancel Root)
  | None => ret tt
  end.

(** [func main()]. The two deferred calls ([logger.Sync], [db.Close]) are
    not events: every path ends in [os.Exit], which runs no deferred call. *)
Definition main (E : Env) : Proc unit :=
  (* ctx, cancel := context.WithCancel(context.Background()) *)
  let ctx := Root in
  emit EBanner;;
  emit ENotify;;
  emit (EGo TSignal);;
  emit EParseConfig;;
  let cfg := ParseConfig E in
  emit ENewProduction;;
  emit (ESqlOpen "pgx" (Dsn cfg) (sql_Open E "pgx" (Dsn cfg)));;
  match sql_Open E "pgx" (Dsn cfg) with
  | Some err => log_Fatal ("failed to connect to database:" +:+ Error err)
  | None =>
    emit ENewProvider;;
    emit ENewJobHandler;;
    emit (EGo TServer);;
    match runnerFactory (modes E) (news E) cfg with
    | Err err =>
      emit (EResolve (RunMode cfg) (Some err));;
      emit (ECancel ctx);;
      emit (EStderr (Error err +:+ fmt.newline));;
      emit ETelemetryClose;;
      os_Exit 1
    | Ok runnerInstance =>
      emit (EResolve (RunMode cfg) None);;
      emit (ERun runnerInstance ctx);;
      emit (ERunReturned (Run runnerInstance ctx));;
      match Run runnerInstance ctx with
      | Some err =>
        emit (EStderr (Error err +:+ fmt.newline));;
        emit (EClose runnerInstance ctx);;
        emit ETelemetryClose;;
        emit (ECancel ctx);;
        os_Exit 1
      | None =>
        emit (EClose runnerInstance ctx);;
        emit ETelemetryClose;;
        emit (ECancel ctx);;
        os_Exit 0
      end
    end
  end.

(** *** The three threads together *)

(** The code of a thread, as the events it goes through. *)
Definition body (E : Env) (t : Tid) : list Event :=
  match t with
  | TMain => trace (main E)
  | TSignal => trace signalTask
  | TServer => trace (serverTask E)
  end.

(** The process: which threads are started, how far each is in its code,
    the contexts cancelled so far, the exit status once the process has
    ended, and the events so far with the thread of each. *)
Record State := {
  started : Tid -> bool;
  pc : Tid -> nat;
  cancelled : list Context;
  exited : option Z;
  history : list (Tid * Event);
}.

Definition init : State :=
  {| started := fun t => bool_decide (t = TMain);
     pc := fun _ => 0%nat;
     cancelled := [];
     exited := None;
     history := [] |}.

(** One step of thread [t]: its next event, when the process is running and
    the thread is started and not at its end. A blocking call ([<-sigChan],
    [ListenAndServe], [Run]) returns when its thread is next chosen, so any
    delay of it is a schedule. Each [go] statement of [main] is executed
    once. *)
Definition run (E : Env) (s : State) (t : Tid) : State :=
  match exited s, started s t, body E t !! pc s t with
  | None, true, Some e =>
    {| started := match e with
                  | EGo g => <[g := true]> (started s)
                  | _ => started s
                  end;
       pc := <[t := S (pc s t)]> (pc s);
       cancelled := match e with
                    | ECancel ctx => ctx :: cancelled s
                    | _ => cancelled s
                    end;
       exited := match e with
                 | EExit c => Some c
                 | _ => None
                 end;
       history := history s ++ [(t, e)] |}
  | _, _, _ => s
  end.

(** The state after a schedule: the threads chosen one after the other. *)
Definition exec (E : Env) (sched : list Tid) : State :=
  fold_left (run E) sched init.

(** Thread [t] has run to the end of its code. *)
Definition finished (E : Env) (s : State) (t : Tid) : Prop :=
  started s t = true /\ pc s t = length (body E t).

(** The events of thread [t] in a history. *)
Definition events_of (t : Tid) (h : list (Tid * Event)) : list Event :=
  map snd (List.filter (fun te => bool_decide (fst te = t)) h).

Definition is_Run (e : Event) : bool :=
  match e with ERun _ _ => true | _ => false end.
Definition is_Close (e : Event) : bool :=
  match e with EClose _ _ => true | _ => false end.
Definition is_Shutdown (e : Event) : bool :=
  match e with EShutdown _ => true | _ => false end.
Definition is_Exit (e : Event) : bool :=
  match e with EExit _ => true | _ => false end.
Definition is_RunReturned (e : Event) : bool :=
  match e with ERunReturned _ => true | _ => false end.
Definition is_ResolveFailed (e : Event) : bool :=
  match e with EResolve _ (Some _) => true | _ => false end.
Definition is_OpenFailed (e : Event) : bool :=
  match e with ESqlOpen _ _ (Some _) => true | _ => false end.

(** The entries of a history that are calls of [Close]. *)
Definition closes (h : list (Tid * Event)) : list (Tid * Event) :=
  List.filter (fun te => is_Close (snd te)) h.

(** The contexts cancelled in a history, in order. *)
Definition cancels (h : list (Tid * Event)) : list Context :=
  flat_map (fun te => match snd te with ECancel ctx => [ctx] | _ => [] end) h.

(** The events of [main] up to the return of [sql.Open], and from there to
    the start of the server goroutine. *)
Definition startup (cfg : Config) (open : option error) : list Event :=
  [EBanner; ENotify; EGo TSignal; EParseConfig; ENewProduction;
   ESqlOpen "pgx" (Dsn cfg) open].

Definition wiring : list Event := [ENewProvider; ENewJobHandler; EGo TServer].

(** Two states in which [main] is equally far and the process has exited
    alike. *)
Definition same_main (s s' : State) : Prop :=
  pc s TMain = pc s' TMain /\ exited s = exited s'
  /\ started s TMain = true /\ started s' TMain = true.

(** The steps of [main] in a schedule. *)
Definition main_steps (sched : list Tid) : list Tid :=
  List.filter (fun t => bool_decide (t = TMain)) sched.

End main.

(** ** The specification's side, and concrete inputs *)

Module spec.
Import handlers.

(** The four validation rules as the specification lists them: when a rule
    is violated, and its message. *)
Definition rules : list ((CreateJobRequest -> bool) * string) :=
  [ (fun r => String.eqb (strings.TrimSpace (Query r)) "",
     "query is required");
    (fun r => String.eqb (strings.TrimSpace (Language r)) "",
     "language is required");
    (fun r => negb ((0 <=? MaxDepth r) && (MaxDepth r <=? 10)),
     "max_depth must be between 0 and 10");
    (fun r => negb ((0 <=? Zoom r) && (Zoom r <=? 21)),
     "zoom must be between 0 and 21") ].

(** The messages of the rules a request violates, in the order of the
    rules. *)
Definition violations (r : CreateJobRequest) : list string :=
  map snd (List.filter (fun rule => fst rule r) rules).

(** [needle] occurs in [s]. *)
Definition occurs_in (needle s : string) : Prop :=
  exists pre post, s = pre +:+ needle +:+ post.

(** A valid creation request: the creation method, a body that decodes, and
    no violated rule. *)
Definition valid (r : Request) (req : CreateJobRequest) : Prop :=
  Method r = http.MethodPost /\ Decode r = Ok req /\ validate req = None.

(** The response schemas of the external-interface section, as key lists. *)
Definition schema_created : list string := ["job_id"; "status"; "request_id"].
Definition schema_error : list string := ["status"; "message"; "request_id"].

(** The keys the encoder emits for every response of the handler. *)
Definition emitted_keys : list string :=
  ["job_id"; "status"; "message"; "request_id"].

(** The writer after one JSON response with status [code] and body [o] on a
    fresh writer. *)
Definition sent (code : Z) (o : json.Object) : http.ResponseWriter :=
  {| http.Header := {[ "Content-Type" := ["application/json"] ]};
     http.Status := Some code;
     http.Body := [o] |}.

(** The document [respondWithError] encodes. *)
Definition error_object (message requestID : string) : json.Object :=
  [("job_id", ""); ("status", "error"); ("message", message);
   ("request_id", requestID)].

(** The document of the success response. *)
Definition created_object (jobID requestID : string) : json.Object :=
  [("job_id", jobID); ("status", "created");
   ("message", "Job created successfully"); ("request_id", requestID)].

(** The identifier the n-th call of [uuid.New] after the state [σ] yields,
    as a string. *)
Definition next_id {Q} (σ : World Q) (n : nat) : string :=
  uuid.UUID_String (uuid.nth_uuid (uuids σ) (uuid.drawn (uuids σ) + n)).

(** The job a valid request is turned into, under the identifier [jobID]. *)
Definition job_of (req : CreateJobRequest) (jobID : string) : gmaps.GmapJob :=
  gmaps.NewGmapJob jobID (Language req) (Query req) (MaxDepth req)
    (ExtractEmail req) (GeoCoords req) (Zoom req).

(** Inverse of [uuid.hexdigit] on the sixteen digits, and of the two digits
    of a byte. *)
Definition hexval (c : ascii) : N :=
  let n := N_of_ascii c in
  (if n <? 58 then n - 48 else n - 87)%N.

Definition unhex (hi lo : ascii) : option byte :=
  Byte.of_N (16 * hexval hi + hexval lo)%N.

End spec.

Module sample.
Import handlers.

(** The body of the specification's second example, decoded: the two absent
    fields keep their zero values. *)
Definition bad_request : CreateJobRequest :=
  {| Query := ""; Language := "en"; MaxDepth := 3; ExtractEmail := false;
     GeoCoords := ""; Zoom := 30 |}.

(** The body of the specification's first example, decoded. *)
Definition good_request : CreateJobRequest :=
  {| Query := "coffee shops"; Language := "en"; MaxDepth := 3;
     ExtractEmail := true; GeoCoords := "40.7,-74.0"; Zoom := 15 |}.

Definition post (req : CreateJobRequest) : Request :=
  {| Method := "POST"; Ctx := OfRequest 0; Decode := Ok req |}.

(** A random source whose n-th value starts with the byte n. *)
Definition uuid_of (n : nat) : uuid.UUID :=
  list_to_vec
    [ default x00 (Byte.of_N (N.of_nat n)); x5b; xc1; x0e; x77; x2a; x4d; x10;
      x9f; x3c; x00; x42; xac; x12; x00; x02 ].

Definition source : uuid.Source := {| uuid.nth_uuid := uuid_of; uuid.drawn := 0 |}.

(** An in-memory queue that accepts every job, and a queue whose store is
    unreachable. *)
Definition memQueue : gmaps.Provider (list gmaps.GmapJob) :=
  fun _ job q => (None, q ++ [job]).

Definition downQueue : gmaps.Provider unit :=
  fun _ _ q => (Some (errorString "dial tcp: connection refused"), q).

Definition world {Q} (q : Q) : World Q :=
  {| uuids := source; queue := q; logged := [] |}.

Definition handler : JobHandler := {| logger := [] |}.

(** A value [json.Marshal] rejects: a channel. *)
Inductive Chan := MakeChan.

Definition Chan_Marshaler : json.Marshaler Chan :=
  fun _ => Err (errorString "json: unsupported type: chan int").

(** A runner that returns what it is told to, the run modes numbered from 1,
    and an environment around them. *)
Definition runner_returning (res : option error) : runner.Runner :=
  {| runner.Run := fun _ => res; runner.Close := fun _ => None |}.

Definition modes : runner.RunModes :=
  {| runner.RunModeFile := 1; runner.RunModeDatabase := 2;
     runner.RunModeDatabaseProduce := 3; runner.RunModeInstallPlaywright := 4;
     runner.RunModeWeb := 5; runner.RunModeAwsLambda := 6;
     runner.RunModeAwsLambdaInvoker := 7 |}.

Definition constructors (res : option error) : runner.Constructors :=
  {| runner.filerunner_New := fun _ => Ok (runner_returning res);
     runner.databaserunner_New := fun _ => Ok (runner_returning res);
     runner.installplaywright_New := fun _ => Ok (runner_returning res);
     runner.webrunner_New := fun _ => Ok (runner_returning res);
     runner.lambdaaws_New := fun _ => Ok (runner_returning res);
     runner.lambdaaws_NewInvoker := fun _ => Ok (runner_returning res) |}.

Definition env (mode : Z) (open listen res : option error) : main.Env :=
  {| main.modes := modes;
     main.news := constructors res;
     main.ParseConfig := {| runner.Dsn := "postgres://localhost/jobs"; runner.RunMode := mode |};
     main.sql_Open := fun _ _ => open;
     main.ListenAndServe := listen |}.

End sample.

(** ** Further notions for the properties of the handler and of [main] *)

Module more.
Import proc.

(** A byte that is ASCII white space for [strings.TrimSpace], and a byte
    that is ASCII and no white space. *)
Definition white (c : ascii) : Prop := strings.asciiSpace c = true.

Definition printable (c : ascii) : Prop :=
  (N_of_ascii c < 128)%N /\ strings.asciiSpace c = false.

(** A request with other values in the two fields [validate] does not read. *)
Definition with_optional (req : handlers.CreateJobRequest)
    (extractEmail : bool) (geoCoords : string) : handlers.CreateJobRequest :=
  {| handlers.Query := handlers.Query req;
     handlers.Language := handlers.Language req;
     handlers.MaxDepth := handlers.MaxDepth req;
     handlers.ExtractEmail := extractEmail;
     handlers.GeoCoords := geoCoords;
     handlers.Zoom := handlers.Zoom req |}.

(** The logger [CreateJob] derives for a request. *)
Definition request_logger (h : handlers.JobHandler) (requestID : string)
  : zap.Logger :=
  zap.With (handlers.logger h)
    [("request_id", requestID); ("handler", "CreateJob")].

Definition is_TelemetryClose (e : Event) : bool :=
  match e with ETelemetryClose => true | _ => false end.
(** A direct call of [os.Stderr.WriteString]. The log package and the zap
    logger reach the same stream through calls of their own ([EPrint],
    [EZap]), which this does not count. *)
Definition is_WriteString (e : Event) : bool :=
  match e with EStderr _ => true | _ => false end.

(** A text of ASCII bytes only, and a response whose four fields are such
    texts: for these the encoder's document has the field values
    themselves. *)
Definition ascii_text (s : string) : bool :=
  forallb (fun c => (N_of_ascii c <? 128)%N) (list_ascii_of_string s).

Definition ascii_response (r : handlers.CreateJobResponse) : Prop :=
  ascii_text (handlers.JobID r) = true
  /\ ascii_text (handlers.Status r) = true
  /\ ascii_text (handlers.Message r) = true
  /\ ascii_text (handlers.RequestID r) = true.
Definition is_Cancel (e : Event) : bool :=
  match e with ECancel _ => true | _ => false end.
Definition is_Print (e : Event) : bool :=
  match e with EPrint _ => true | _ => false end.

(** The kinds of event the two goroutines go through. *)
Definition of_goroutine (e : Event) : bool :=
  match e with
  | ERecvSignal | EPrint _ | ECancel _ | EZap _ | EListenAndServe _
  | EListenReturned _ => true
  | _ => false
  end.

(** The entries of a history whose event satisfies [P]. *)
Definition those (P : Event -> bool) (h : list (Tid * Event))
  : list (Tid * Event) :=
  List.filter (fun te => P (snd te)) h.

End more.

(** * Properties *)

(** ** The library models on concrete inputs *)

Example TrimSpace_inner_space_kept :
  strings.TrimSpace "  coffee shops  " = "coffee shops".
Proof. reflexivity. Qed.

Example TrimSpace_blank : strings.TrimSpace "    " = "".
Proof. reflexivity. Qed.

(** U+00A0 and U+2003 are white space; a lone byte 0xA0 is not. *)
Example TrimSpace_unicode :
  strings.TrimSpace
    (String (ascii_of_N 0xC2) (String (ascii_of_N 0xA0)
       (String (ascii_of_N 0xE2) (String (ascii_of_N 0x80)
          (String (ascii_of_N 0x83) "x ")))))
  = "x".
Proof. reflexivity. Qed.

Example TrimSpace_invalid_utf8 :
  strings.TrimSpace (String (ascii_of_N 0xA0) " ")
  = String (ascii_of_N 0xA0) "".
Proof. reflexivity. Qed.

Example Join_three : strings.Join ["a"; "b"; "c"] ", " = "a, b, c".
Proof. reflexivity. Qed.

Example UUID_String_of_sample :
  uuid.UUID_String (sample.uuid_of 10) = "0a5bc10e-772a-4d10-9f3c-0042ac120002".
Proof. reflexivity. Qed.

Example fmt_d_negative : fmt.d (-15) = "-15".
Proof. reflexivity. Qed.

Example Is_wrapped :
  errors.Is (fmt.Errorf_w_d ErrInvalidRunMode 42) ErrInvalidRunMode = true
  /\ Error (fmt.Errorf_w_d ErrInvalidRunMode 42) = "invalid run mode: 42".
Proof. split; reflexivity. Qed.

(** A second write of the status is ignored, and a write without status
    sends 200. *)
Example WriteHeader_twice :
  http.Status (http.WriteHeader 500 (http.WriteHeader 201 http.newResponseWriter))
  = Some 201.
Proof. reflexivity. Qed.

Example Write_sends_200 :
  http.Status (http.Write [] http.newResponseWriter) = Some 200.
Proof. reflexivity. Qed.

(** ** Validation (jobs.go, [validate]) *)

Section Validation.
Import handlers.

Lemma outside_range (x lo hi : Z) :
  (x <? lo) || (x >? hi) = negb ((lo <=? x) && (x <=? hi)).
Proof.
  rewrite Z.gtb_ltb, negb_andb, (Z.leb_antisym x lo), (Z.leb_antisym hi x).
  now rewrite !negb_involutive.
Qed.

(** [validate] returns no error exactly when no rule is violated, and
    otherwise the error whose text lists the violated rules in order. *)
Lemma validate_spec (req : CreateJobRequest) :
  validate req =
  match spec.violations req with
  | [] => None
  | msgs => Some (errorString ("validation failed: " +:+ strings.Join msgs ", "))
  end.
Proof.
  unfold validate, spec.violations, spec.rules.
  cbn [List.filter map fst snd].
  rewrite <- !outside_range.
  destruct (String.eqb (strings.TrimSpace (Query req)) "");
    destruct (String.eqb (strings.TrimSpace (Language req)) "");
    destruct ((MaxDepth req <? 0) || (MaxDepth req >? 10));
    destruct ((Zoom req <? 0) || (Zoom req >? 21));
    reflexivity.
Qed.

Lemma validate_None (req : CreateJobRequest) :
  validate req = None <-> spec.violations req = [].
Proof.
  rewrite validate_spec. destruct (spec.violations req); split; congruence.
Qed.

(** The text of a validation error is never empty. *)
Lemma validate_message_nonempty (req : CreateJobRequest) (err : error) :
  validate req = Some err -> String.eqb (Error err) "" = false.
Proof.
  rewrite validate_spec.
  destruct (spec.violations req); intros [= <-]; reflexivity.
Qed.

End Validation.

(** ** The handler (jobs.go, [CreateJob]) *)

Section Handler.
Import handlers.
Context {Q : Type} `{!gmaps.Provider Q}.
Implicit Types (h : JobHandler) (r : Request) (σ : World Q).

Lemma respondWithError_fresh h code message requestID σ :
  String.eqb message "" = false ->
  respondWithError h http.newResponseWriter code message requestID σ
  = (spec.sent code (spec.error_object message requestID), σ).
Proof.
  intros Hne. unfold respondWithError, respondWithJSON, json.Marshal,
    CreateJobResponse_Marshaler, json.field. cbn. rewrite Hne. reflexivity.
Qed.

Ltac step_handler :=
  unfold CreateJob, bind, log, uuid_New_String, provider_Push, uuid.New, spec.next_id;
  cbn [uuids queue logged uuid.nth_uuid uuid.drawn fst snd];
  rewrite ?Nat.add_0_r.

(** Any method but POST: 405. *)
Lemma CreateJob_method_not_allowed h r σ :
  Method r <> http.MethodPost ->
  (CreateJob h http.newResponseWriter r σ).1
  = spec.sent 405 (spec.error_object "Method not allowed" (spec.next_id σ 0)).
Proof.
  intros Hm. step_handler.
  apply String.eqb_neq in Hm. rewrite Hm. cbn [negb].
  now rewrite respondWithError_fresh.
Qed.

(** A body that does not decode: 400. *)
Lemma CreateJob_bad_body h r σ err :
  Method r = http.MethodPost -> Decode r = Err err ->
  (CreateJob h http.newResponseWriter r σ).1
  = spec.sent 400 (spec.error_object "Invalid request body" (spec.next_id σ 0)).
Proof.
  intros Hm Hd. step_handler.
  rewrite Hm, Hd, String.eqb_refl. cbn [negb].
  now rewrite respondWithError_fresh.
Qed.

(** A request that violates a rule: 400 with the error's text, and nothing
    is pushed. *)
Lemma CreateJob_invalid h r σ req err :
  Method r = http.MethodPost -> Decode r = Ok req -> validate req = Some err ->
  CreateJob h http.newResponseWriter r σ
  = (spec.sent 400 (spec.error_object (Error err) (spec.next_id σ 0)),
     {| uuids := (uuid.New (uuids σ)).2;
        queue := queue σ;
        logged := logged σ ++
          [zap.entry (zap.With (logger h)
                        [("request_id", spec.next_id σ 0); ("handler", "CreateJob")])
                     zap.ErrorLevel "request validation failed"
                     [("error", Error err)]] |}).
Proof.
  intros Hm Hd Hv. step_handler.
  rewrite Hm, Hd, Hv, String.eqb_refl. cbn [negb].
  now rewrite respondWithError_fresh by (eapply validate_message_nonempty; eauto).
Qed.

(** A valid request: the job is pushed under the second identifier drawn;
    the response is 201 with both identifiers when the push succeeds, and
    500 with the request identifier only when it fails. *)
Lemma CreateJob_valid h r σ req :
  spec.valid r req ->
  let requestID := spec.next_id σ 0 in
  let jobID := spec.next_id σ 1 in
  let pushed := gmaps.Push (Ctx r) (spec.job_of req jobID) (queue σ) in
  let out := CreateJob h http.newResponseWriter r σ in
  out.1 = match pushed.1 with
          | None => spec.sent 201 (spec.created_object jobID requestID)
          | Some _ =>
            spec.sent 500 (spec.error_object "Failed to create job" requestID)
          end
  /\ queue out.2 = pushed.2
  /\ uuid.nth_uuid (uuids out.2) = uuid.nth_uuid (uuids σ)
  /\ uuid.drawn (uuids out.2) = (uuid.drawn (uuids σ) + 2)%nat.
Proof.
  intros (Hm & Hd & Hv). step_handler.
  rewrite Hm, Hd, Hv, String.eqb_refl. cbn [negb].
  step_handler. unfold spec.job_of. rewrite Nat.add_1_r.
  destruct (gmaps.Push _ _ _) as [[err|] q]; cbn [fst snd].
  - rewrite respondWithError_fresh by reflexivity. cbn. repeat split; lia.
  - unfold respondWithJSON, json.Marshal, CreateJobResponse_Marshaler. cbn.
    repeat split; lia.
Qed.

End Handler.

(** ** C1: validation reports every violated rule *)

(** C1. For a request with the creation method whose body decodes to [req]:
    [validate] checks all four rules (it returns no error exactly when none
    is violated, and otherwise the error "validation failed: " followed by
    the messages of all violated rules in the order query, language,
    max_depth, zoom, joined by ", "); when a rule is violated the handler
    answers 400 with that text as the message and pushes no job; and the
    specification's example body yields "validation failed: query is
    required, zoom must be between 0 and 21". *)
Theorem validation_reports_every_violated_rule
    (Q : Type) (P : gmaps.Provider Q) (h : handlers.JobHandler)
    (r : handlers.Request) (req : handlers.CreateJobRequest)
    (σ : handlers.World Q) :
  handlers.Method r = http.MethodPost ->
  handlers.Decode r = Ok req ->
  let text := "validation failed: " +:+ strings.Join (spec.violations req) ", " in
  let out := handlers.CreateJob h http.newResponseWriter r σ in
  handlers.validate req
    = (if decide (spec.violations req = []) then None else Some (errorString text))
  /\ (spec.violations req <> [] ->
      out.1 = spec.sent http.StatusBadRequest
                (spec.error_object text (spec.next_id σ 0))
      /\ handlers.queue out.2 = handlers.queue σ)
  /\ (req = sample.bad_request ->
      spec.violations req = ["query is required"; "zoom must be between 0 and 21"]
      /\ json.member "message" (hd [] (http.Body out.1))
         = Some "validation failed: query is required, zoom must be between 0 and 21").
Proof.
  intros Hm Hd text out.
  assert (Hv : handlers.validate req
               = if decide (spec.violations req = []) then None
                 else Some (errorString text)).
  { rewrite validate_spec. subst text.
    destruct (spec.violations req); [reflexivity|].
    destruct (decide _) as [Heq|_]; [discriminate Heq | reflexivity]. }
  assert (Hbad : spec.violations req <> [] ->
                 handlers.validate req = Some (errorString text)).
  { intros Hne. rewrite Hv. destruct (decide _); [contradiction | reflexivity]. }
  split; [exact Hv|]. split.
  - intros Hne. subst out.
    rewrite (CreateJob_invalid h r σ req _ Hm Hd (Hbad Hne)).
    split; reflexivity.
  - intros ->. split; [reflexivity|]. subst out.
    rewrite (CreateJob_invalid h r σ _ _ Hm Hd (Hbad ltac:(discriminate))).
    reflexivity.
Qed.

Lemma validation_reports_every_violated_rule_witness :
  let r := sample.post sample.bad_request in
  let σ := sample.world [] in
  let out := @handlers.CreateJob _ sample.memQueue sample.handler
               http.newResponseWriter r σ in
  handlers.Method r = http.MethodPost
  /\ handlers.Decode r = Ok sample.bad_request
  /\ http.Status out.1 = Some 400
  /\ json.member "message" (hd [] (http.Body out.1))
     = Some "validation failed: query is required, zoom must be between 0 and 21".
Proof.
  intros r σ out.
  destruct (validation_reports_every_violated_rule _ sample.memQueue
              sample.handler r sample.bad_request σ eq_refl eq_refl)
    as (_ & Hresp & Hex).
  split; [reflexivity|]. split; [reflexivity|]. split.
  - destruct Hresp as [Hout _]; [discriminate|]. fold out in Hout.
    rewrite Hout. reflexivity.
  - exact (proj2 (Hex eq_refl)).
Defined.

(** ** Identifiers (google/uuid) *)

Section Identifiers.

Lemma unhex_hexdigits (b : byte) :
  spec.unhex (uuid.hexdigit (N.shiftr (Byte.to_N b) 4))
             (uuid.hexdigit (N.land (Byte.to_N b) 0x0f)) = Some b.
Proof. destruct b; reflexivity. Qed.

Lemma hexdigits_inj (a b : byte) :
  uuid.hexdigit (N.shiftr (Byte.to_N a) 4) = uuid.hexdigit (N.shiftr (Byte.to_N b) 4) ->
  uuid.hexdigit (N.land (Byte.to_N a) 0x0f) = uuid.hexdigit (N.land (Byte.to_N b) 0x0f) ->
  a = b.
Proof.
  intros Hhi Hlo.
  pose proof (unhex_hexdigits a) as Ha.
  rewrite Hhi, Hlo, unhex_hexdigits in Ha. congruence.
Qed.

(** The text of an identifier has 36 characters. *)
Lemma UUID_String_length (u : uuid.UUID) :
  String.length (uuid.UUID_String u) = 36%nat.
Proof. unfold uuid.UUID in u. inv_vec u. intros. reflexivity. Qed.

(** Distinct identifiers have distinct texts. *)
Lemma UUID_String_inj (u v : uuid.UUID) :
  uuid.UUID_String u = uuid.UUID_String v -> u = v.
Proof.
  unfold uuid.UUID in u, v. inv_vec u. inv_vec v. intros.
  unfold uuid.UUID_String in H.
  cbn [vec_to_list Vector.to_list Vector.fold_right take drop uuid.hex_Encode String.append] in H.
  injection H as H.
  repeat match goal with
         | Hhi : uuid.hexdigit (N.shiftr (Byte.to_N ?a) 4) = _,
           Hlo : uuid.hexdigit (N.land (Byte.to_N ?a) 0x0f) = _ |- _ =>
           pose proof (hexdigits_inj _ _ Hhi Hlo); clear Hhi Hlo
         end.
  subst. reflexivity.
Qed.

End Identifiers.

(** ** Occurrences of one text in another *)

Section Occurrences.

Lemma length_append (a b : string) :
  String.length (a +:+ b) = (String.length a + String.length b)%nat.
Proof.
  induction a as [|c a IH]; [reflexivity|].
  change (S (String.length (a +:+ b)) = S (String.length a + String.length b)).
  now f_equal.
Qed.

Lemma occurs_in_length (needle s : string) :
  spec.occurs_in needle s -> (String.length needle <= String.length s)%nat.
Proof.
  intros (pre & post & ->). rewrite !length_append. lia.
Qed.

Lemma append_nil_r (a : string) : a +:+ "" = a.
Proof.
  induction a as [|c a IH]; [reflexivity|].
  change (String c (a +:+ "") = String c a). now f_equal.
Qed.

(** A text occurs in a text of the same length only when they are equal. *)
Lemma occurs_in_same_length (needle s : string) :
  spec.occurs_in needle s -> String.length needle = String.length s ->
  needle = s.
Proof.
  intros (pre & post & ->) Hlen. rewrite !length_append in Hlen.
  destruct pre; [|cbn in Hlen; lia].
  destruct post; [|cbn in Hlen; lia].
  cbn. now rewrite append_nil_r.
Qed.

(** An identifier's text occurs in no shorter text. *)
Lemma id_not_in_short (u : uuid.UUID) (s : string) :
  (String.length s < 36)%nat -> ~ spec.occurs_in (uuid.UUID_String u) s.
Proof.
  intros Hlt Hocc. apply occurs_in_length in Hocc.
  rewrite UUID_String_length in Hocc. lia.
Qed.

(** ... and in the text of no other identifier. *)
Lemma id_not_in_other_id (u v : uuid.UUID) :
  u <> v -> ~ spec.occurs_in (uuid.UUID_String u) (uuid.UUID_String v).
Proof.
  intros Hne Hocc. apply Hne, UUID_String_inj, occurs_in_same_length; [exact Hocc|].
  now rewrite !UUID_String_length.
Qed.

(** Among fresh values, those of two different calls differ. *)
Lemma fresh_distinct (src : uuid.Source) (k i j : nat) :
  uuid.fresh src k -> (i < k)%nat -> (j < k)%nat -> i <> j ->
  uuid.nth_uuid src (uuid.drawn src + i) <> uuid.nth_uuid src (uuid.drawn src + j).
Proof.
  unfold uuid.fresh. intros Hnd Hi Hj Hij Heq.
  apply Hij.
  eapply (NoDup_lookup _ i j); [exact Hnd| |].
  - rewrite list_lookup_fmap, lookup_seq_lt by lia. reflexivity.
  - rewrite list_lookup_fmap, lookup_seq_lt by lia. cbn. now rewrite Heq.
Qed.

End Occurrences.

(** ** C9: a response that cannot be encoded *)

(** C9. When [json.Marshal] fails on the payload, [respondWithJSON] (on a
    writer that has sent no status yet) sends status 500, writes nothing to
    the body and leaves the header map as it was, so no Content-Type is set
    and no error object is produced; it logs the failure and changes nothing
    else. *)
Theorem marshal_failure_sends_bare_500
    (Q A : Type) (M : json.Marshaler A) (h : handlers.JobHandler)
    (w : http.ResponseWriter) (code : Z) (payload : A)
    (σ : handlers.World Q) (err : error) :
  json.Marshal payload = Err err ->
  http.Status w = None ->
  let out := handlers.respondWithJSON h w code payload σ in
  http.Status out.1 = Some http.StatusInternalServerError
  /\ http.Body out.1 = http.Body w
  /\ http.Header out.1 = http.Header w
  /\ (w = http.newResponseWriter ->
      http.Body out.1 = [] /\ http.Header out.1 !! "Content-Type" = None)
  /\ handlers.queue out.2 = handlers.queue σ
  /\ handlers.logged out.2
     = handlers.logged σ
       ++ [zap.entry (handlers.logger h) zap.ErrorLevel
             "failed to marshal response" [("error", Error err)]].
Proof.
  intros Hm Hs out. subst out.
  unfold handlers.respondWithJSON. rewrite Hm.
  unfold handlers.bind, handlers.log, handlers.ret, http.WriteHeader.
  rewrite Hs. cbn [fst snd http.Status http.Body http.Header
                   handlers.queue handlers.logged].
  repeat split; try reflexivity; subst w; cbn; done.
Qed.

Lemma marshal_failure_sends_bare_500_witness :
  let out := @handlers.respondWithJSON unit _ sample.Chan_Marshaler sample.handler
               http.newResponseWriter http.StatusCreated sample.MakeChan
               (sample.world tt) in
  out.1 = {| http.Header := ∅; http.Status := Some 500; http.Body := [] |}.
Proof.
  intros out.
  destruct (marshal_failure_sends_bare_500 unit _ sample.Chan_Marshaler
              sample.handler http.newResponseWriter http.StatusCreated
              sample.MakeChan (sample.world tt) _ eq_refl eq_refl)
    as (Hs & Hb & Hh & _).
  fold out in Hs, Hb, Hh. destruct out as [[hd st bd] σ']. cbn in *.
  now subst.
Defined.

(** ** C2: the fields of a response *)

(** The claim as stated fails: the 201 response to the specification's
    first example carries a "message" member besides the three of the
    schema, and the 400 response to its second example carries "job_id"
    (the empty string). *)
Lemma response_fields_differ_from_schema :
  (let out := @handlers.CreateJob _ sample.memQueue sample.handler
                http.newResponseWriter (sample.post sample.good_request)
                (sample.world []) in
   http.Status out.1 = Some 201
   /\ map json.keys (http.Body out.1) = [spec.emitted_keys]
   /\ map json.keys (http.Body out.1) <> [spec.schema_created])
  /\ (let out := @handlers.CreateJob _ sample.memQueue sample.handler
                   http.newResponseWriter (sample.post sample.bad_request)
                   (sample.world []) in
      http.Status out.1 = Some 400
      /\ map json.keys (http.Body out.1) = [spec.emitted_keys]
      /\ map (json.member "job_id") (http.Body out.1) = [Some ""]
      /\ map json.keys (http.Body out.1) <> [spec.schema_error]).
Proof.
  split; cbv zeta.
  - split; [reflexivity|]. split; [reflexivity|]. discriminate.
  - split; [reflexivity|]. split; [reflexivity|]. split; [reflexivity|].
    discriminate.
Qed.

(** C2, amended. Every call of [CreateJob] on a fresh writer sends exactly
    one JSON object, with Content-Type application/json, whose members are
    job_id, status, message and request_id in this order: with status 201 it
    is {job_id, status "created", message "Job created successfully",
    request_id}, and with status 400, 405 or 500 it is {job_id "", status
    "error", a non-empty message, request_id}. No other status is sent. *)
Theorem response_has_four_fields
    (Q : Type) (P : gmaps.Provider Q) (h : handlers.JobHandler)
    (r : handlers.Request) (σ : handlers.World Q) :
  let out := handlers.CreateJob h http.newResponseWriter r σ in
  exists (code : Z) (o : json.Object),
    out.1 = spec.sent code o
    /\ json.keys o = spec.emitted_keys
    /\ json.member "request_id" o = Some (spec.next_id σ 0)
    /\ ((code = http.StatusCreated
         /\ o = spec.created_object (spec.next_id σ 1) (spec.next_id σ 0))
        \/ ((code = http.StatusBadRequest \/ code = http.StatusMethodNotAllowed
             \/ code = http.StatusInternalServerError)
            /\ exists message,
                 message <> ""
                 /\ o = spec.error_object message (spec.next_id σ 0))).
Proof.
  intros out. subst out.
  destruct (decide (handlers.Method r = http.MethodPost)) as [Hm|Hm].
  2: { rewrite CreateJob_method_not_allowed by exact Hm.
       eexists _, _. split; [reflexivity|]. repeat split.
       right. split; [tauto|]. eexists. split; [|reflexivity]. discriminate. }
  destruct (handlers.Decode r) as [req|err] eqn:Hd.
  2: { rewrite (CreateJob_bad_body h r σ err Hm Hd).
       eexists _, _. split; [reflexivity|]. repeat split.
       right. split; [tauto|]. eexists. split; [|reflexivity]. discriminate. }
  destruct (handlers.validate req) as [err|] eqn:Hv.
  { rewrite (CreateJob_invalid h r σ req err Hm Hd Hv). cbn [fst].
    eexists _, _. split; [reflexivity|]. repeat split.
    right. split; [tauto|]. eexists. split; [|reflexivity].
    apply validate_message_nonempty in Hv. now apply String.eqb_neq. }
  destruct (CreateJob_valid h r σ req (conj Hm (conj Hd Hv))) as (Hout & _).
  rewrite Hout.
  destruct (gmaps.Push _ _ _).1.
  - eexists _, _. split; [reflexivity|]. repeat split.
    right. split; [tauto|]. eexists. split; [|reflexivity]. discriminate.
  - eexists _, _. split; [reflexivity|]. repeat split.
    left. split; reflexivity.
Qed.

(** ** C6: a failed push *)

(** C6. For a valid request whose push fails (the random source yielding
    fresh values), the handler answers 500 with the error object of the
    request identifier: its job_id member is the empty string, and the
    identifier generated for the job occurs in no key and in no value of the
    body. *)
Theorem push_failure_hides_job_id
    (Q : Type) (P : gmaps.Provider Q) (h : handlers.JobHandler)
    (r : handlers.Request) (req : handlers.CreateJobRequest)
    (σ : handlers.World Q) (err : error) :
  spec.valid r req ->
  uuid.fresh (handlers.uuids σ) 2 ->
  let requestID := spec.next_id σ 0 in
  let jobID := spec.next_id σ 1 in
  (gmaps.Push (handlers.Ctx r) (spec.job_of req jobID) (handlers.queue σ)).1
    = Some err ->
  let out := handlers.CreateJob h http.newResponseWriter r σ in
  out.1 = spec.sent http.StatusInternalServerError
            (spec.error_object "Failed to create job" requestID)
  /\ (forall o, In o (http.Body out.1) ->
      json.member "job_id" o = Some ""
      /\ forall k v, In (k, v) o ->
           ~ spec.occurs_in jobID k /\ ~ spec.occurs_in jobID v).
Proof.
  intros Hvalid Hfresh requestID jobID Hpush out.
  destruct (CreateJob_valid h r σ req Hvalid) as (Hout & _).
  fold jobID requestID out in Hout. rewrite Hpush in Hout.
  split; [exact Hout|]. rewrite Hout.
  intros o [<-|[]]. split; [reflexivity|].
  assert (Hrid : ~ spec.occurs_in jobID requestID).
  { apply id_not_in_other_id.
    apply (fresh_distinct _ 2 1 0); [exact Hfresh | lia | lia | lia]. }
  intros k v Hin. cbn in Hin.
  destruct Hin as [[= <- <-]|[[= <- <-]|[[= <- <-]|[[= <- <-]|[]]]]];
    (split; [apply id_not_in_short; cbn; lia|]);
    try (apply id_not_in_short; cbn; lia).
  exact Hrid.
Qed.

Lemma push_failure_hides_job_id_witness :
  let out := @handlers.CreateJob _ sample.downQueue sample.handler
               http.newResponseWriter (sample.post sample.good_request)
               (sample.world tt) in
  http.Status out.1 = Some 500
  /\ map (json.member "job_id") (http.Body out.1) = [Some ""].
Proof.
  intros out.
  assert (Hfresh : uuid.fresh sample.source 2).
  { repeat constructor; vm_compute; intros H; inversion H; subst;
      try discriminate;
      match goal with H' : _ ∈ _ |- _ => inversion H' end. }
  destruct (push_failure_hides_job_id _ sample.downQueue sample.handler
              (sample.post sample.good_request) sample.good_request
              (sample.world tt) (errorString "dial tcp: connection refused")
              (conj eq_refl (conj eq_refl eq_refl)) Hfresh eq_refl)
    as (Hout & _).
  fold out in Hout. rewrite Hout. split; reflexivity.
Defined.

(** ** C7: two identifiers per request, and no deduplication *)

(** C7. For a valid request handled twice in a row (the random source
    yielding fresh values over the four calls): each call draws a request
    identifier and a job identifier that differ from each other, the job
    identifiers of the two calls differ, each call pushes its own job under
    its own identifier whatever the payload (the second push follows the
    first on the queue), and a call whose push succeeds answers 201 with
    its two identifiers. *)
Theorem identifiers_are_distinct
    (Q : Type) (P : gmaps.Provider Q) (h : handlers.JobHandler)
    (r : handlers.Request) (req : handlers.CreateJobRequest)
    (σ : handlers.World Q) :
  spec.valid r req ->
  uuid.fresh (handlers.uuids σ) 4 ->
  let out1 := handlers.CreateJob h http.newResponseWriter r σ in
  let out2 := handlers.CreateJob h http.newResponseWriter r out1.2 in
  let requestID1 := spec.next_id σ 0 in
  let jobID1 := spec.next_id σ 1 in
  let requestID2 := spec.next_id σ 2 in
  let jobID2 := spec.next_id σ 3 in
  let push1 := gmaps.Push (handlers.Ctx r) (spec.job_of req jobID1)
                 (handlers.queue σ) in
  let push2 := gmaps.Push (handlers.Ctx r) (spec.job_of req jobID2) push1.2 in
  jobID1 <> requestID1 /\ jobID2 <> requestID2 /\ jobID1 <> jobID2
  /\ handlers.queue out1.2 = push1.2
  /\ handlers.queue out2.2 = push2.2
  /\ (push1.1 = None ->
      out1.1 = spec.sent http.StatusCreated (spec.created_object jobID1 requestID1))
  /\ (push2.1 = None ->
      out2.1 = spec.sent http.StatusCreated (spec.created_object jobID2 requestID2)).
Proof.
  intros Hvalid Hfresh out1 out2 requestID1 jobID1 requestID2 jobID2 push1 push2.
  assert (Hne : forall i j, (i < 4)%nat -> (j < 4)%nat -> i <> j ->
                            spec.next_id σ i <> spec.next_id σ j).
  { intros i j Hi Hj Hij Heq. apply UUID_String_inj in Heq.
    now apply (fresh_distinct _ 4 i j Hfresh Hi Hj Hij). }
  destruct (CreateJob_valid h r σ req Hvalid) as (Ho1 & Hq1 & Hsrc1 & Hn1).
  fold out1 in Ho1, Hq1, Hsrc1, Hn1. fold jobID1 requestID1 push1 in Ho1, Hq1.
  destruct (CreateJob_valid h r out1.2 req Hvalid) as (Ho2 & Hq2 & _).
  fold out2 in Ho2, Hq2.
  assert (Hid : forall n, spec.next_id out1.2 n = spec.next_id σ (2 + n)).
  { intros n. unfold spec.next_id. rewrite Hsrc1, Hn1. f_equal. f_equal. lia. }
  rewrite !Hid, Hq1 in Ho2, Hq2. cbn [Nat.add] in Ho2, Hq2.
  fold jobID2 requestID2 push2 in Ho2, Hq2.
  repeat split.
  - apply Hne; lia.
  - apply Hne; lia.
  - apply Hne; lia.
  - exact Hq1.
  - exact Hq2.
  - intros Hok. now rewrite Ho1, Hok.
  - intros Hok. rewrite Ho2, Hok, ?Hid. reflexivity.
Qed.

Lemma identifiers_are_distinct_witness :
  let out1 := @handlers.CreateJob _ sample.memQueue sample.handler
                http.newResponseWriter (sample.post sample.good_request)
                (sample.world []) in
  let out2 := @handlers.CreateJob _ sample.memQueue sample.handler
                http.newResponseWriter (sample.post sample.good_request) out1.2 in
  map gmaps.ID (handlers.queue out2.2)
  = ["015bc10e-772a-4d10-9f3c-0042ac120002"; "035bc10e-772a-4d10-9f3c-0042ac120002"]
  /\ map (json.member "job_id") (http.Body out1.1)
     <> map (json.member "job_id") (http.Body out2.1).
Proof.
  intros out1 out2.
  assert (Hfresh : uuid.fresh sample.source 4).
  { repeat constructor; vm_compute; intros H;
      repeat (inversion H; subst; try discriminate;
              match goal with H' : _ ∈ _ |- _ => clear H; rename H' into H end);
      inversion H. }
  destruct (identifiers_are_distinct _ sample.memQueue sample.handler
              (sample.post sample.good_request) sample.good_request
              (sample.world []) (conj eq_refl (conj eq_refl eq_refl)) Hfresh)
    as (_ & _ & Hjj & _ & Hq2 & Ho1 & Ho2).
  fold out1 in Ho1. fold out1 out2 in Ho2, Hq2.
  split.
  - rewrite Hq2. reflexivity.
  - rewrite (Ho1 eq_refl), (Ho2 eq_refl). intros Heq. apply Hjj.
    cbn [map http.Body spec.sent json.member spec.created_object find
         String.eqb Ascii.eqb Bool.eqb fst snd fmap option_fmap option_map] in Heq.
    congruence.
Defined.

(** ** The lifecycle coordinator (package main) *)

Section Coordinator.
Import proc runner main.
Variable E : Env.

Let cfg := ParseConfig E.
Let opened := sql_Open E "pgx" (Dsn cfg).
Let resolved := runnerFactory (modes E) (news E) cfg.

(** The four ways through [main]. *)
Lemma main_cases :
  match opened with
  | Some err =>
    main E = (startup cfg (Some err)
                ++ [EPrint ("failed to connect to database:" +:+ Error err);
                    EExit 1],
              Exited 1)
  | None =>
    match resolved with
    | Err err =>
      main E = (startup cfg None ++ wiring
                  ++ [EResolve (RunMode cfg) (Some err); ECancel Root;
                      EStderr (Error err +:+ fmt.newline); ETelemetryClose;
                      EExit 1],
                Exited 1)
    | Ok r =>
      match Run r Root with
      | Some err =>
        main E = (startup cfg None ++ wiring
                    ++ [EResolve (RunMode cfg) None; ERun r Root;
                        ERunReturned (Some err);
                        EStderr (Error err +:+ fmt.newline); EClose r Root;
                        ETelemetryClose; ECancel Root; EExit 1],
                  Exited 1)
      | None =>
        main E = (startup cfg None ++ wiring
                    ++ [EResolve (RunMode cfg) None; ERun r Root;
                        ERunReturned None; EClose r Root; ETelemetryClose;
                        ECancel Root; EExit 0],
                  Exited 0)
      end
    end
  end.
Proof.
  unfold main. fold cfg. fold opened. fold resolved.
  destruct opened; [reflexivity|].
  destruct resolved as [r|err]; [|reflexivity].
  destruct (Run r Root); reflexivity.
Qed.

(** The code of the two goroutines. *)
Lemma signal_body :
  body E TSignal
  = [ERecvSignal; EPrint "Received signal, shutting down..."; ECancel Root].
Proof. reflexivity. Qed.

Lemma server_body :
  body E TServer
  = [EZap "API server is running"; EListenAndServe ":6060";
     EListenReturned (ListenAndServe E)]
    ++ match ListenAndServe E with
       | Some e =>
         if decide (e = ErrServerClosed) then []
         else [EPrint ("server error: " +:+ Error e); ECancel Root]
       | None => []
       end.
Proof.
  unfold body, serverTask, server.Start. cbn.
  destruct (ListenAndServe E) as [e|]; [|reflexivity].
  destruct (decide (e = ErrServerClosed)); reflexivity.
Qed.

(** Only [main] exits, runs and closes a runner; nobody shuts the server
    down. *)
Lemma goroutine_events (t : Tid) (e : Event) :
  In e (body E t) -> t <> TMain ->
  is_Exit e = false /\ is_Run e = false /\ is_RunReturned e = false
  /\ is_Close e = false /\ is_Shutdown e = false.
Proof.
  intros Hin Ht. destruct t; [contradiction | |].
  - rewrite signal_body in Hin. cbn in Hin.
    destruct Hin as [<-|[<-|[<-|[]]]]; repeat split.
  - rewrite server_body in Hin.
    destruct (ListenAndServe E) as [e'|];
      [destruct (decide (e' = ErrServerClosed))|]; cbn in Hin;
      repeat (destruct Hin as [<-|Hin]; [repeat split|]); destruct Hin.
Qed.

Lemma main_no_shutdown (e : Event) :
  In e (body E TMain) -> is_Shutdown e = false.
Proof.
  unfold body. intros Hin. pose proof main_cases as Hc.
  destruct opened; [|destruct resolved as [r|]; [destruct (Run r Root)|]];
    rewrite Hc in Hin; cbn in Hin;
    repeat (destruct Hin as [<-|Hin]; [reflexivity|]); destruct Hin.
Qed.

End Coordinator.

(** ** Interleavings *)

Section Interleavings.
Import proc runner main.
Variable E : Env.

Lemma exec_snoc (sched : list Tid) (t : Tid) :
  exec E (sched ++ [t]) = run E (exec E sched) t.
Proof. unfold exec. now rewrite fold_left_app. Qed.

(** What holds at the start and is kept by every step holds after every
    schedule. *)
Lemma exec_ind (P : State -> Prop) :
  P init -> (forall s t, P s -> P (run E s t)) ->
  forall sched, P (exec E sched).
Proof.
  intros H0 Hstep sched. induction sched as [|t sched IH] using rev_ind.
  - exact H0.
  - rewrite exec_snoc. now apply Hstep.
Qed.

Lemma events_of_snoc (t t' : Tid) (e : Event) (h : list (Tid * Event)) :
  events_of t (h ++ [(t', e)])
  = events_of t h ++ (if decide (t' = t) then [e] else []).
Proof.
  unfold events_of. rewrite List.filter_app, map_app. cbn.
  destruct (decide (t' = t)) as [->|Hne].
  - now rewrite bool_decide_eq_true_2.
  - now rewrite bool_decide_eq_false_2.
Qed.

(** A step either changes nothing or appends the next event of its
    thread. *)
Lemma run_cases (s : State) (t : Tid) :
  run E s t = s
  \/ exists e,
       exited s = None /\ started s t = true /\ body E t !! pc s t = Some e
       /\ history (run E s t) = history s ++ [(t, e)]
       /\ pc (run E s t) = <[t := S (pc s t)]> (pc s)
       /\ exited (run E s t) = match e with EExit c => Some c | _ => None end
       /\ cancelled (run E s t)
          = match e with ECancel ctx => ctx :: cancelled s | _ => cancelled s end
       /\ started (run E s t)
          = match e with EGo g => <[g := true]> (started s) | _ => started s end.
Proof.
  unfold run.
  destruct (exited s); [now left|].
  destruct (started s t); [|now left].
  destruct (body E t !! pc s t) as [e|]; [|now left].
  right. exists e. repeat split.
Qed.

(** The events of each thread in the history are the part of its code it
    has gone through. *)
Lemma history_follows_code (sched : list Tid) (t : Tid) :
  events_of t (history (exec E sched))
  = take (pc (exec E sched) t) (body E t).
Proof.
  revert t. apply exec_ind with (P := fun s => forall t,
    events_of t (history s) = take (pc s t) (body E t)).
  - intros t. reflexivity.
  - intros s t IH t'.
    destruct (run_cases s t) as [->|(e & _ & _ & Hnext & Hh & Hpc & _)];
      [apply IH|].
    rewrite Hh, Hpc, events_of_snoc, IH.
    destruct (decide (t = t')) as [->|Hne].
    + rewrite fn_lookup_insert. symmetry. now apply take_S_r.
    + rewrite fn_lookup_insert_ne by exact Hne. now rewrite app_nil_r.
Qed.

Lemma in_events_of (t : Tid) (e : Event) (h : list (Tid * Event)) :
  In (t, e) h <-> In e (events_of t h).
Proof.
  unfold events_of. rewrite in_map_iff. split.
  - intros Hin. exists (t, e). split; [reflexivity|].
    apply filter_In. split; [exact Hin|]. now apply bool_decide_eq_true_2.
  - intros ([t' e'] & <- & Hin). apply filter_In in Hin as [Hin Ht].
    apply bool_decide_eq_true_1 in Ht. cbn in Ht. now subst.
Qed.

(** Every event of the history is an event of its thread's code. *)
Lemma history_in_body (sched : list Tid) (t : Tid) (e : Event) :
  In (t, e) (history (exec E sched)) -> In e (body E t).
Proof.
  rewrite in_events_of, history_follows_code. intros Hin.
  apply list_elem_of_In in Hin. apply list_elem_of_In.
  exact (subseteq_take _ _ _ Hin).
Qed.

(** The exit status is that of the last event. *)
Lemma exited_last (sched : list Tid) :
  exited (exec E sched)
  = match list.last (history (exec E sched)) with
    | Some (_, EExit c) => Some c
    | _ => None
    end.
Proof.
  apply exec_ind with (P := fun s =>
    exited s = match list.last (history s) with
               | Some (_, EExit c) => Some c
               | _ => None
               end).
  - reflexivity.
  - intros s t IH.
    destruct (run_cases s t) as [->|(e & _ & _ & _ & Hh & _ & Hx & _)];
      [exact IH|].
    rewrite Hh, Hx, last_snoc. reflexivity.
Qed.

(** The contexts cancelled are those of the [cancel] calls of the history. *)
Lemma cancelled_history (sched : list Tid) :
  cancelled (exec E sched) = rev (cancels (history (exec E sched))).
Proof.
  apply exec_ind with (P := fun s => cancelled s = rev (cancels (history s))).
  - reflexivity.
  - intros s t IH.
    destruct (run_cases s t) as [->|(e & _ & _ & _ & Hh & _ & _ & Hc & _)];
      [exact IH|].
    rewrite Hh, Hc. unfold cancels. rewrite flat_map_app, rev_app_distr.
    cbn. destruct e; cbn; exact IH || now rewrite IH.
Qed.

End Interleavings.

(** ** The end of the process *)

Section ProcessExit.
Import proc runner main.
Variable E : Env.

(** [main] always ends in [os.Exit], its last event and only exit. *)
Lemma main_ends_in_exit :
  exists pre c,
    trace (main E) = pre ++ [EExit c]
    /\ exit_code (main E) = Some c
    /\ forall e, In e pre -> is_Exit e = false.
Proof.
  pose proof (main_cases E) as Hc. cbv zeta in Hc.
  destruct (sql_Open E "pgx" (Dsn (ParseConfig E))) as [err|].
  { exists (startup (ParseConfig E) (Some err)
            ++ [EPrint ("failed to connect to database:" +:+ Error err)]), 1.
    rewrite Hc. repeat split.
    intros e Hin. cbn in Hin.
    repeat (destruct Hin as [<-|Hin]; [reflexivity|]). destruct Hin. }
  destruct (runnerFactory _ _ _) as [r|err].
  2: { exists (startup (ParseConfig E) None ++ wiring
               ++ [EResolve (RunMode (ParseConfig E)) (Some err); ECancel Root;
                   EStderr (Error err +:+ fmt.newline); ETelemetryClose]), 1.
       rewrite Hc. repeat split.
       intros e Hin. cbn in Hin.
       repeat (destruct Hin as [<-|Hin]; [reflexivity|]). destruct Hin. }
  destruct (Run r Root) as [err|].
  - exists (startup (ParseConfig E) None ++ wiring
            ++ [EResolve (RunMode (ParseConfig E)) None; ERun r Root;
                ERunReturned (Some err); EStderr (Error err +:+ fmt.newline);
                EClose r Root; ETelemetryClose; ECancel Root]), 1.
    rewrite Hc. repeat split.
    intros e Hin. cbn in Hin.
    repeat (destruct Hin as [<-|Hin]; [reflexivity|]). destruct Hin.
  - exists (startup (ParseConfig E) None ++ wiring
            ++ [EResolve (RunMode (ParseConfig E)) None; ERun r Root;
                ERunReturned None; EClose r Root; ETelemetryClose;
                ECancel Root]), 0.
    rewrite Hc. repeat split.
    intros e Hin. cbn in Hin.
    repeat (destruct Hin as [<-|Hin]; [reflexivity|]). destruct Hin.
Qed.

Lemma take_ending_in_last {A} (P : A -> bool) (l pre q : list A) (x z : A) (n : nat) :
  l = pre ++ [x] -> (forall y, In y pre -> P y = false) ->
  take n l = q ++ [z] -> P z = true ->
  take n l = l /\ z = x.
Proof.
  intros -> Hpre Htake Hz.
  destruct (decide (n <= length pre)%nat) as [Hle|Hgt].
  - exfalso. rewrite take_app_le in Htake by exact Hle.
    assert (Hin : In z pre).
    { apply list_elem_of_In. apply (subseteq_take n pre).
      rewrite Htake. apply list_elem_of_In, in_or_app. right. now left. }
    rewrite (Hpre z Hin) in Hz. discriminate.
  - rewrite take_ge in Htake |- * by (rewrite length_app; cbn; lia).
    split; [reflexivity|].
    apply app_inj_tail in Htake. symmetry. apply Htake.
Qed.

(** When the process has exited, [main] has issued the exit as the last
    event of the history, has gone through all of its code, and the status
    is the one [main] exits with. *)
Lemma exit_is_by_main (sched : list Tid) (c : Z) :
  exited (exec E sched) = Some c ->
  list.last (history (exec E sched)) = Some (TMain, EExit c)
  /\ events_of TMain (history (exec E sched)) = trace (main E)
  /\ exit_code (main E) = Some c.
Proof.
  intros Hx. rewrite exited_last in Hx.
  destruct (list.last (history (exec E sched))) as [[t e]|] eqn:Hlast;
    [|discriminate].
  destruct e; try discriminate. injection Hx as ->.
  apply last_Some in Hlast as [h' Hh].
  assert (Hin : In (t, EExit c) (history (exec E sched))).
  { rewrite Hh. apply in_or_app. right. now left. }
  assert (Ht : t = TMain).
  { destruct (decide (t = TMain)) as [|Hne]; [assumption|].
    apply history_in_body in Hin.
    destruct (goroutine_events E t _ Hin Hne) as [Hex _]. discriminate Hex. }
  subst t.
  destruct main_ends_in_exit as (pre & c0 & Htr & Hcode & Hpre).
  pose proof (history_follows_code E sched TMain) as Hfol.
  rewrite Hh, events_of_snoc in Hfol. rewrite decide_True in Hfol by reflexivity.
  symmetry in Hfol.
  destruct (take_ending_in_last is_Exit _ _ _ _ _ _ Htr Hpre Hfol eq_refl)
    as [Hall Hc].
  injection Hc as ->.
  split; [reflexivity|]. split; [|exact Hcode].
  rewrite Hh, events_of_snoc, decide_True by reflexivity.
  rewrite <- Hfol. exact Hall.
Qed.

End ProcessExit.

(** ** C3: the exit status *)


(** ** C4: factory resolution *)

Section Factory.
Import proc runner main.




End Factory.



(** ** C5: [Close] after [Run] *)

Section CloseAfterRun.
Import proc runner main.

(** An event of a thread splits the history where it splits the thread's
    events. *)
Lemma split_by_thread (t : Tid) (h : list (Tid * Event)) :
  forall (a b : list Event) (e : Event),
    events_of t h = a ++ e :: b ->
    exists h1 h2,
      h = h1 ++ (t, e) :: h2 /\ events_of t h1 = a /\ events_of t h2 = b.
Proof.
  induction h as [|[t' e'] h IH]; intros a b e Hev.
  - destruct a; discriminate Hev.
  - unfold events_of in Hev. cbn [List.filter fst] in Hev.
    destruct (bool_decide (t' = t)) eqn:Ht.
    + apply bool_decide_eq_true_1 in Ht. subst t'. cbn [map snd] in Hev.
      destruct a as [|a0 a].
      * injection Hev as -> Hb. exists [], h. repeat split. exact Hb.
      * injection Hev as -> Hev. destruct (IH a b e Hev) as (h1 & h2 & -> & Ha & Hb).
        exists ((t, a0) :: h1), h2. repeat split; [|exact Hb].
        unfold events_of. cbn [List.filter fst].
        rewrite bool_decide_eq_true_2 by reflexivity. cbn [map snd].
        f_equal. exact Ha.
    + destruct (IH a b e Hev) as (h1 & h2 & -> & Ha & Hb).
      exists ((t', e') :: h1), h2. repeat split; [|exact Hb].
      unfold events_of. cbn [List.filter fst]. rewrite Ht. exact Ha.
Qed.

(** Where only [main] closes, the calls of [Close] in a history are those
    among the events of [main]. *)
Lemma closes_of_main (h : list (Tid * Event)) :
  (forall t e, In (t, e) h -> t <> TMain -> is_Close e = false) ->
  closes h = map (pair TMain) (List.filter is_Close (events_of TMain h)).
Proof.
  induction h as [|[t e] h IH]; intros Hothers; [reflexivity|].
  assert (IH' := IH (fun t e Hin => Hothers t e (or_intror Hin))).
  unfold closes, events_of in *. cbn [List.filter fst snd].
  destruct (decide (t = TMain)) as [->|Hne].
  - rewrite bool_decide_eq_true_2 by reflexivity. cbn [map snd List.filter].
    destruct (is_Close e); cbn [map]; now rewrite IH'.
  - rewrite bool_decide_eq_false_2 by exact Hne.
    rewrite (Hothers t e (or_introl eq_refl) Hne). exact IH'.
Qed.

Lemma only_main_closes (E : Env) (sched : list Tid) (h : list (Tid * Event)) :
  (forall te, In te h -> In te (history (exec E sched))) ->
  forall t e, In (t, e) h -> t <> TMain -> is_Close e = false.
Proof.
  intros Hsub t e Hin Hne. apply Hsub, history_in_body in Hin.
  now destruct (goroutine_events E t e Hin Hne) as (_ & _ & _ & ? & _).
Qed.

End CloseAfterRun.

(** In an interleaving that has reached the exit and in which [Run] was
    called on a runner: the call is [main]'s, on the root context; the
    history has the return of [Run] after it; no [Close] is called before
    that return; and after it [Close] is called exactly once, on the same
    runner and context. *)
Lemma close_once_at_exit
    (E : main.Env) (sched : list proc.Tid) (c : Z)
    (t : proc.Tid) (r : runner.Runner) (ctx : Context) :
  let s := main.exec E sched in
  main.exited s = Some c ->
  In (t, proc.ERun r ctx) (main.history s) ->
  t = proc.TMain /\ ctx = Root
  /\ (c = 0 <-> runner.Run r ctx = None)
  /\ (c = 1 <-> exists err, runner.Run r ctx = Some err)
  /\ exists h1 h2 h3,
       main.history s
       = h1 ++ (proc.TMain, proc.ERun r ctx)
            :: h2 ++ (proc.TMain, proc.ERunReturned (runner.Run r ctx)) :: h3
       /\ main.closes h1 = []
       /\ main.closes h2 = []
       /\ main.closes h3 = [(proc.TMain, proc.EClose r ctx)].
Proof.
  intros s Hx Hrun.
  destruct (exit_is_by_main E sched c Hx) as (_ & Hmain & Hcode).
  fold s in Hmain.
  assert (Ht : t = proc.TMain).
  { destruct (decide (t = proc.TMain)) as [|Hne]; [assumption|].
    apply history_in_body in Hrun.
    destruct (goroutine_events E t _ Hrun Hne) as (_ & Hr & _). discriminate Hr. }
  subst t. split; [reflexivity|].
  pose proof Hrun as Hin. apply in_events_of in Hin. rewrite Hmain in Hin.
  pose proof (main_cases E) as Hc. cbv zeta in Hc.
  set (cfg := main.ParseConfig E) in *.
  destruct (main.sql_Open E "pgx" (runner.Dsn cfg)).
  { exfalso. rewrite Hc in Hin. cbn in Hin.
    repeat (destruct Hin as [Hin|Hin]; [discriminate Hin|]). exact Hin. }
  destruct (main.runnerFactory _ _ cfg) as [r'|err].
  2: { exfalso. rewrite Hc in Hin. cbn in Hin.
       repeat (destruct Hin as [Hin|Hin]; [discriminate Hin|]). exact Hin. }
  destruct (runner.Run r' Root) as [err|] eqn:Hres;
    rewrite Hc in Hin, Hmain, Hcode; cbn in Hin, Hcode;
    injection Hcode as <-;
    (repeat (destruct Hin as [Hin|Hin]; [try discriminate Hin|]);
     [injection Hin as <- <- | destruct Hin]);
    rewrite Hres; (split; [reflexivity|]).
  - split; [split; [discriminate | discriminate]|].
    split; [split; [intros _; now exists err | reflexivity]|].
    destruct (split_by_thread proc.TMain (main.history s)
                (main.startup cfg None ++ main.wiring
                   ++ [proc.EResolve (runner.RunMode cfg) None])
                [proc.ERunReturned (Some err);
                 proc.EStderr (Error err +:+ fmt.newline);
                 proc.EClose r' Root; proc.ETelemetryClose;
                 proc.ECancel Root; proc.EExit 1]
                (proc.ERun r' Root) Hmain) as (h1 & h' & Hh & Hev1 & Hev').
    destruct (split_by_thread proc.TMain h' [] _ _ Hev')
      as (h2 & h3 & -> & Hev2 & Hev3).
    exists h1, h2, h3. split; [exact Hh|].
    rewrite !closes_of_main.
    1: { rewrite Hev1, Hev2, Hev3. repeat split. }
    all: apply (only_main_closes E sched); intros te Hte;
      change (In te (main.history s));
      rewrite Hh, !in_app_iff; cbn [In]; rewrite ?in_app_iff; cbn [In]; tauto.
  - split; [split; [reflexivity | reflexivity]|].
    split; [split; [discriminate | intros [? [=]]]|].
    destruct (split_by_thread proc.TMain (main.history s)
                (main.startup cfg None ++ main.wiring
                   ++ [proc.EResolve (runner.RunMode cfg) None])
                [proc.ERunReturned None;
                 proc.EClose r' Root; proc.ETelemetryClose;
                 proc.ECancel Root; proc.EExit 0]
                (proc.ERun r' Root) Hmain) as (h1 & h' & Hh & Hev1 & Hev').
    destruct (split_by_thread proc.TMain h' [] _ _ Hev')
      as (h2 & h3 & -> & Hev2 & Hev3).
    exists h1, h2, h3. split; [exact Hh|].
    rewrite !closes_of_main.
    1: { rewrite Hev1, Hev2, Hev3. repeat split. }
    all: apply (only_main_closes E sched); intros te Hte;
      change (In te (main.history s));
      rewrite Hh, !in_app_iff; cbn [In]; rewrite ?in_app_iff; cbn [In]; tauto.
Qed.

(** ** C8 and C10: the server goroutine *)

Section ServerTask.
Import proc runner main.
Variable E : Env.

(** [Run] is called by [main] only, on the root context. *)
Lemma run_is_on_root (sched : list Tid) (t : Tid) (r : Runner) (ctx : Context) :
  In (t, ERun r ctx) (history (exec E sched)) -> t = TMain /\ ctx = Root.
Proof.
  intros Hin. apply history_in_body in Hin.
  destruct (decide (t = TMain)) as [->|Hne].
  2: { destruct (goroutine_events E t _ Hin Hne) as (_ & Hr & _). discriminate Hr. }
  split; [reflexivity|].
  unfold body in Hin. pose proof (main_cases E) as Hc. cbv zeta in Hc.
  destruct (sql_Open E "pgx" _);
    [|destruct (runnerFactory _ _ _) as [r'|]; [destruct (Run r' Root)|]];
    rewrite Hc in Hin; cbn in Hin;
    repeat (destruct Hin as [Hin|Hin];
            [first [discriminate Hin | injection Hin as _ <-; reflexivity]|]);
    destruct Hin.
Qed.

(** What precedes the exit in the code of [main]: [sql.Open] failing,
    resolution failing, or [Run] returning. *)
Lemma main_exit_cause :
  exists e, In e (trace (main E))
            /\ is_OpenFailed e || is_ResolveFailed e || is_RunReturned e = true.
Proof.
  pose proof (main_cases E) as Hc. cbv zeta in Hc.
  destruct (sql_Open E "pgx" _) as [err|];
    [|destruct (runnerFactory _ _ _) as [r'|err];
      [destruct (Run r' Root) as [err|]|]]; rewrite Hc.
  - exists (ESqlOpen "pgx" (Dsn (ParseConfig E)) (Some err)).
    split; [|reflexivity]. cbn. tauto.
  - exists (ERunReturned (Some err)). split; [|reflexivity]. cbn. tauto.
  - exists (ERunReturned None). split; [|reflexivity]. cbn. tauto.
  - exists (EResolve (RunMode (ParseConfig E)) (Some err)).
    split; [|reflexivity]. cbn. tauto.
Qed.

Lemma started_after_go (f : Tid -> bool) (e : Event) :
  f TMain = true ->
  match e with EGo g => <[g := true]> f | _ => f end TMain = true.
Proof.
  intros Hf. destruct e; try exact Hf.
  destruct (decide (g = TMain)) as [->|Hg];
    [apply fn_lookup_insert | now rewrite fn_lookup_insert_ne].
Qed.

Lemma same_main_step (s s' : State) :
  same_main s s' -> same_main (run E s TMain) (run E s' TMain).
Proof.
  intros Hsame. pose proof Hsame as (Hpc & Hx & Hst & Hst'). unfold run.
  rewrite <- Hx, <- Hpc, Hst, Hst'.
  destruct (exited s) eqn:Hs; [exact Hsame|].
  destruct (body E TMain !! pc s TMain) as [e|]; [|exact Hsame].
  unfold same_main. cbn [pc exited started]. rewrite !fn_lookup_insert.
  repeat split; now apply started_after_go.
Qed.

Lemma same_main_other (s s' : State) (t : Tid) :
  t <> TMain -> same_main s s' -> same_main (run E s t) s'.
Proof.
  intros Hne Hsame. pose proof Hsame as (Hpc & Hx & Hst & Hst').
  destruct (run_cases E s t)
    as [->|(e & Hnone & _ & Hnext & _ & Hpc' & Hx' & _ & Hst'')];
    [exact Hsame|].
  unfold same_main.
  rewrite Hpc', Hx', Hst'', fn_lookup_insert_ne by exact Hne.
  assert (Hin : In e (body E t)).
  { apply list_elem_of_In. eapply list_elem_of_lookup_2. exact Hnext. }
  destruct (goroutine_events E t e Hin Hne) as (Hex & _).
  repeat split; try assumption.
  - rewrite <- Hx, Hnone. destruct e; try reflexivity. discriminate Hex.
  - now apply started_after_go.
Qed.

(** The goroutines change neither how far [main] is nor whether the process
    has exited: both are as after the schedule's steps of [main] alone. *)
Lemma main_runs_alone (sched : list Tid) :
  same_main (exec E sched) (exec E (main_steps sched)).
Proof.
  induction sched as [|t sched IH] using rev_ind; [repeat split|].
  unfold main_steps. rewrite List.filter_app. cbn [List.filter].
  rewrite exec_snoc.
  destruct (decide (t = TMain)) as [->|Hne].
  - rewrite bool_decide_eq_true_2 by reflexivity. rewrite exec_snoc.
    now apply same_main_step.
  - rewrite bool_decide_eq_false_2 by exact Hne. rewrite app_nil_r.
    now apply same_main_other.
Qed.

End ServerTask.

(** ** C8: the server is never shut down, and who ends the process *)

(** [main] starts the server goroutine exactly when [sql.Open] succeeds. *)
Lemma server_started_iff_opened (E : main.Env) :
  In (proc.EGo proc.TServer) (proc.trace (main.main E))
  <-> main.sql_Open E "pgx" (runner.Dsn (main.ParseConfig E)) = None.
Proof.
  pose proof (main_cases E) as Hc. cbv zeta in Hc.
  destruct (main.sql_Open E "pgx" _);
    [|destruct (main.runnerFactory _ _ _) as [r|];
      [destruct (runner.Run r Root)|]];
    rewrite Hc; cbn; split; try discriminate; try tauto.
  intros Hin. repeat (destruct Hin as [Hin|Hin]; [discriminate Hin|]).
  destruct Hin.
Qed.

(** After [sql.Open] has succeeded, what precedes the exit in the code of
    [main] is resolution failing or [Run] returning. *)
Lemma main_exit_cause_after_open (E : main.Env) :
  main.sql_Open E "pgx" (runner.Dsn (main.ParseConfig E)) = None ->
  exists e, In e (proc.trace (main.main E))
            /\ main.is_ResolveFailed e || main.is_RunReturned e = true.
Proof.
  intros Ho. pose proof (main_cases E) as Hc. cbv zeta in Hc. rewrite Ho in Hc.
  destruct (main.runnerFactory _ _ _) as [r|err];
    [destruct (runner.Run r Root) as [err|]|]; rewrite Hc.
  - exists (proc.ERunReturned (Some err)). split; [|reflexivity]. cbn. tauto.
  - exists (proc.ERunReturned None). split; [|reflexivity]. cbn. tauto.
  - exists (proc.EResolve (runner.RunMode (main.ParseConfig E)) (Some err)).
    split; [|reflexivity]. cbn. tauto.
Qed.

(** C8. In every interleaving: [Shutdown] is never called. When the process
    has exited, the exit is the last event and is [main]'s, never a
    goroutine's; the server task was started exactly when [sql.Open]
    succeeded, and whenever it was started [main] has, before the exit, seen
    factory resolution fail or [Run] return (the one other exit of the code,
    [log.Fatal] on an error of [sql.Open], comes before the server task
    exists). The goroutines have no part in the exit: how far [main] is and
    whether the process has exited are as after the schedule's steps of
    [main] alone, so the server task is never waited for. *)
Theorem server_is_never_shut_down (E : main.Env) (sched : list proc.Tid) :
  let s := main.exec E sched in
  let opened := main.sql_Open E "pgx" (runner.Dsn (main.ParseConfig E)) in
  (forall t e, In (t, e) (main.history s) -> main.is_Shutdown e = false)
  /\ (forall c, main.exited s = Some c ->
      list.last (main.history s) = Some (proc.TMain, proc.EExit c)
      /\ (In (proc.TMain, proc.EGo proc.TServer) (main.history s)
          <-> opened = None)
      /\ (In (proc.TMain, proc.EGo proc.TServer) (main.history s)
          \/ opened = None ->
          exists e,
            In (proc.TMain, e) (main.history s)
            /\ main.is_ResolveFailed e || main.is_RunReturned e = true))
  /\ main.same_main s (main.exec E (main.main_steps sched)).
Proof.
  intros s opened. split; [|split].
  - intros t e Hin. apply history_in_body in Hin.
    destruct (decide (t = proc.TMain)) as [->|Hne].
    + now apply (main_no_shutdown E).
    + now destruct (goroutine_events E t e Hin Hne) as (_ & _ & _ & _ & ?).
  - intros c Hx. destruct (exit_is_by_main E sched c Hx) as (Hlast & Hmain & _).
    fold s in Hmain.
    assert (Hgo : In (proc.TMain, proc.EGo proc.TServer) (main.history s)
                  <-> opened = None).
    { rewrite in_events_of, Hmain. apply server_started_iff_opened. }
    split; [exact Hlast|]. split; [exact Hgo|].
    intros Hor.
    assert (Ho : opened = None) by (destruct Hor as [?|?]; [now apply Hgo | assumption]).
    destruct (main_exit_cause_after_open E Ho) as (e & Hin & Hcause).
    exists e. split; [|exact Hcause].
    apply in_events_of. now rewrite Hmain.
  - apply main_runs_alone.
Qed.

Lemma server_is_never_shut_down_witness :
  let E := sample.env 5 None None None in
  let s := main.exec E (replicate 10 proc.TMain ++ replicate 2 proc.TServer
                          ++ replicate 6 proc.TMain) in
  main.exited s = Some 0
  /\ main.pc s proc.TServer = 2%nat
  /\ list.last (main.history s) = Some (proc.TMain, proc.EExit 0)
  /\ exists e,
       In (proc.TMain, e) (main.history s)
       /\ main.is_ResolveFailed e || main.is_RunReturned e = true.
Proof.
  intros E s.
  assert (Hx : main.exited s = Some 0) by reflexivity.
  split; [exact Hx|]. split; [reflexivity|].
  destruct (server_is_never_shut_down E
              (replicate 10 proc.TMain ++ replicate 2 proc.TServer
                 ++ replicate 6 proc.TMain)) as (_ & Hexit & _).
  destruct (Hexit 0 Hx) as (Hlast & _ & Hcause).
  split; [exact Hlast|]. apply Hcause. right. reflexivity.
Defined.

(** ** C10: a failed server start cancels the root context *)

(** C10. When [ListenAndServe] returns an error other than
    [http.ErrServerClosed], the code of the server goroutine ends with
    printing the error and cancelling the root context; so in every
    interleaving in which the goroutine has run to its end, the root context
    is cancelled, and it is the context every call of [Run] was given. *)
Theorem server_failure_cancels_root
    (E : main.Env) (sched : list proc.Tid) (e : error) :
  let s := main.exec E sched in
  main.ListenAndServe E = Some e ->
  e <> ErrServerClosed ->
  main.finished E s proc.TServer ->
  main.body E proc.TServer
  = [proc.EZap "API server is running"; proc.EListenAndServe ":6060";
     proc.EListenReturned (Some e);
     proc.EPrint ("server error: " +:+ Error e); proc.ECancel Root]
  /\ In (proc.TServer, proc.ECancel Root) (main.history s)
  /\ In Root (main.cancelled s)
  /\ (forall t r ctx, In (t, proc.ERun r ctx) (main.history s) -> ctx = Root).
Proof.
  intros s He Hne (Hst & Hpc).
  assert (Hbody : main.body E proc.TServer
                  = [proc.EZap "API server is running"; proc.EListenAndServe ":6060";
                     proc.EListenReturned (Some e);
                     proc.EPrint ("server error: " +:+ Error e); proc.ECancel Root]).
  { rewrite server_body, He. now rewrite decide_False by exact Hne. }
  assert (Hin : In (proc.TServer, proc.ECancel Root) (main.history s)).
  { apply in_events_of. unfold s. rewrite history_follows_code.
    fold s. rewrite Hpc, firstn_all, Hbody. cbn. tauto. }
  split; [exact Hbody|]. split; [exact Hin|]. split.
  - unfold s. rewrite cancelled_history. fold s.
    apply (proj1 (in_rev _ _)). unfold main.cancels.
    apply in_flat_map. exists (proc.TServer, proc.ECancel Root).
    split; [exact Hin | now left].
  - intros t r ctx Hrun. now apply (run_is_on_root E sched t r ctx).
Qed.

Lemma server_failure_cancels_root_witness :
  let e := errorString "listen tcp :6060: bind: address already in use" in
  let E := sample.env 5 None (Some e) None in
  let s := main.exec E (replicate 11 proc.TMain ++ replicate 5 proc.TServer) in
  main.finished E s proc.TServer
  /\ main.exited s = None
  /\ list.last (main.events_of proc.TMain (main.history s))
     = Some (proc.ERun (sample.runner_returning None) Root)
  /\ In Root (main.cancelled s).
Proof.
  intros e E s.
  assert (Hfin : main.finished E s proc.TServer) by (split; reflexivity).
  split; [exact Hfin|]. split; [reflexivity|]. split; [reflexivity|].
  assert (Hne : e <> ErrServerClosed) by discriminate.
  exact (proj1 (proj2 (proj2
    (server_failure_cancels_root E _ e eq_refl Hne Hfin)))).
Defined.

(** * Further properties *)

(** ** The handler on every kind of request *)

Section HandlerPaths.
Import handlers.
Context {Q : Type} `{!gmaps.Provider Q}.
Implicit Types (h : JobHandler) (r : Request) (σ : World Q).

Ltac eval_handler :=
  unfold CreateJob, bind, log, uuid_New_String, provider_Push, uuid.New,
    spec.next_id, more.request_logger;
  cbn [uuids queue logged uuid.nth_uuid uuid.drawn fst snd];
  rewrite ?Nat.add_0_r.

(** The world after a call with another method than POST. *)
Lemma world_method_not_allowed h r σ :
  Method r <> http.MethodPost ->
  (CreateJob h http.newResponseWriter r σ).2
  = {| uuids := (uuid.New (uuids σ)).2; queue := queue σ; logged := logged σ |}.
Proof.
  intros Hm. eval_handler.
  apply String.eqb_neq in Hm. rewrite Hm. cbn [negb].
  now rewrite respondWithError_fresh.
Qed.

(** ... with a body that does not decode. *)
Lemma world_bad_body h r σ err :
  Method r = http.MethodPost -> Decode r = Err err ->
  (CreateJob h http.newResponseWriter r σ).2
  = {| uuids := (uuid.New (uuids σ)).2;
       queue := queue σ;
       logged := logged σ ++
         [zap.entry (more.request_logger h (spec.next_id σ 0)) zap.ErrorLevel
            "failed to decode request body" [("error", Error err)]] |}.
Proof.
  intros Hm Hd. eval_handler.
  rewrite Hm, Hd, String.eqb_refl. cbn [negb].
  now rewrite respondWithError_fresh.
Qed.

(** ... and for a valid request. *)
Lemma world_valid h r σ req :
  spec.valid r req ->
  let requestID := spec.next_id σ 0 in
  let jobID := spec.next_id σ 1 in
  let pushed := gmaps.Push (Ctx r) (spec.job_of req jobID) (queue σ) in
  logged (CreateJob h http.newResponseWriter r σ).2
  = logged σ ++
    [match pushed.1 with
     | Some err =>
       zap.entry (more.request_logger h requestID) zap.ErrorLevel
         "failed to push job" [("error", Error err); ("job_id", jobID)]
     | None =>
       zap.entry (more.request_logger h requestID) zap.InfoLevel
         "job created successfully" [("job_id", jobID); ("query", Query req)]
     end].
Proof.
  intros (Hm & Hd & Hv). eval_handler.
  rewrite Hm, Hd, Hv, String.eqb_refl. cbn [negb].
  eval_handler. unfold spec.job_of. rewrite Nat.add_1_r.
  destruct (gmaps.Push _ _ _) as [[err|] q]; cbn [fst snd].
  - now rewrite respondWithError_fresh by reflexivity.
  - reflexivity.
Qed.

(** The ways a request can be: wrong method, undecodable, violating a rule,
    valid. *)
Lemma request_cases r :
  Method r <> http.MethodPost
  \/ (Method r = http.MethodPost /\ exists err, Decode r = Err err)
  \/ (Method r = http.MethodPost
      /\ exists req err, Decode r = Ok req /\ validate req = Some err)
  \/ (exists req, spec.valid r req).
Proof.
  destruct (decide (Method r = http.MethodPost)) as [Hm|Hm]; [|now left].
  right. destruct (Decode r) as [req|err] eqn:Hd; [|left; eauto].
  right. destruct (validate req) as [err|] eqn:Hv.
  - left. eauto.
  - right. exists req. now repeat split.
Qed.

End HandlerPaths.

(** X1. The status of a response is decided in this order: 405 for any
    method other than POST, whatever the body; then 400 for a body that
    does not decode or that violates a rule; then 500 when the push fails;
    and 201 exactly when the request is valid and the push succeeds. *)
Theorem status_by_request
    (Q : Type) (P : gmaps.Provider Q) (h : handlers.JobHandler)
    (r : handlers.Request) (σ : handlers.World Q) :
  let out := handlers.CreateJob h http.newResponseWriter r σ in
  let pushed req :=
    gmaps.Push (handlers.Ctx r) (spec.job_of req (spec.next_id σ 1))
      (handlers.queue σ) in
  (handlers.Method r <> http.MethodPost ->
   http.Status out.1 = Some http.StatusMethodNotAllowed)
  /\ (forall err, handlers.Method r = http.MethodPost ->
      handlers.Decode r = Err err ->
      http.Status out.1 = Some http.StatusBadRequest)
  /\ (forall req err, handlers.Method r = http.MethodPost ->
      handlers.Decode r = Ok req -> handlers.validate req = Some err ->
      http.Status out.1 = Some http.StatusBadRequest)
  /\ (forall req err, spec.valid r req -> (pushed req).1 = Some err ->
      http.Status out.1 = Some http.StatusInternalServerError)
  /\ (http.Status out.1 = Some http.StatusCreated
      <-> exists req, spec.valid r req /\ (pushed req).1 = None).
Proof.
  intros out pushed. subst out.
  assert (Hvalid : forall req, spec.valid r req ->
            http.Status (handlers.CreateJob h http.newResponseWriter r σ).1
            = Some (match (pushed req).1 with None => 201 | Some _ => 500 end)).
  { intros req Hv. destruct (CreateJob_valid h r σ req Hv) as (Hout & _).
    rewrite Hout. subst pushed. cbv beta. now destruct (gmaps.Push _ _ _).1. }
  split; [|split; [|split; [|split]]].
  - intros Hm. now rewrite CreateJob_method_not_allowed.
  - intros err Hm Hd. now rewrite (CreateJob_bad_body h r σ err Hm Hd).
  - intros req err Hm Hd Hv. now rewrite (CreateJob_invalid h r σ req err Hm Hd Hv).
  - intros req err Hv Hp. now rewrite (Hvalid req Hv), Hp.
  - split.
    + intros Hs.
      destruct (request_cases r)
        as [Hm|[(Hm & err & Hd)|[(Hm & req & err & Hd & Hv)|(req & Hv)]]].
      * rewrite CreateJob_method_not_allowed in Hs by exact Hm. discriminate Hs.
      * rewrite (CreateJob_bad_body h r σ err Hm Hd) in Hs. discriminate Hs.
      * rewrite (CreateJob_invalid h r σ req err Hm Hd Hv) in Hs. discriminate Hs.
      * exists req. split; [exact Hv|]. rewrite (Hvalid req Hv) in Hs.
        destruct (pushed req).1; [discriminate Hs | reflexivity].
    + intros (req & Hv & Hp). now rewrite (Hvalid req Hv), Hp.
Qed.

(** X2. A request that is not valid (wrong method, undecodable body or a
    violated rule) never reaches the provider: the queue is as before, one
    identifier was drawn (the request identifier) and none for a job. *)
Theorem rejected_request_leaves_queue
    (Q : Type) (P : gmaps.Provider Q) (h : handlers.JobHandler)
    (r : handlers.Request) (σ : handlers.World Q) :
  (forall req, ~ spec.valid r req) ->
  let out := handlers.CreateJob h http.newResponseWriter r σ in
  handlers.queue out.2 = handlers.queue σ
  /\ uuid.drawn (handlers.uuids out.2) = S (uuid.drawn (handlers.uuids σ))
  /\ uuid.nth_uuid (handlers.uuids out.2) = uuid.nth_uuid (handlers.uuids σ)
  /\ map (json.member "job_id") (http.Body out.1) = [Some ""].
Proof.
  intros Hnot out. subst out.
  destruct (request_cases r)
    as [Hm|[(Hm & err & Hd)|[(Hm & req & err & Hd & Hv)|(req & Hv)]]].
  - rewrite world_method_not_allowed, CreateJob_method_not_allowed by exact Hm.
    repeat split.
  - rewrite (world_bad_body h r σ err Hm Hd), (CreateJob_bad_body h r σ err Hm Hd).
    repeat split.
  - rewrite (CreateJob_invalid h r σ req err Hm Hd Hv). repeat split.
  - destruct (Hnot req Hv).
Qed.

Lemma rejected_request_leaves_queue_witness :
  let out := @handlers.CreateJob _ sample.memQueue sample.handler
               http.newResponseWriter (sample.post sample.bad_request)
               (sample.world []) in
  handlers.queue out.2 = []
  /\ uuid.drawn (handlers.uuids out.2) = 1%nat.
Proof.
  intros out.
  assert (Hnot : forall req, ~ spec.valid (sample.post sample.bad_request) req).
  { intros req (_ & Hd & Hv). injection Hd as <-. discriminate Hv. }
  destruct (rejected_request_leaves_queue _ sample.memQueue sample.handler
              (sample.post sample.bad_request) (sample.world []) Hnot)
    as (Hq & Hn & _).
  split; [exact Hq | exact Hn].
Defined.

(** X3. A call logs nothing when the method is not POST and exactly one
    entry otherwise. Every entry carries, after the handler's own fields,
    the request identifier that the response body returns and the handler
    name; it is an info entry exactly when the response is 201, and an error
    entry otherwise. *)
Theorem log_entries_carry_request_id
    (Q : Type) (P : gmaps.Provider Q) (h : handlers.JobHandler)
    (r : handlers.Request) (σ : handlers.World Q) :
  let out := handlers.CreateJob h http.newResponseWriter r σ in
  let requestID := spec.next_id σ 0 in
  exists new,
    handlers.logged out.2 = handlers.logged σ ++ new
    /\ (handlers.Method r <> http.MethodPost -> new = [])
    /\ (handlers.Method r = http.MethodPost -> length new = 1%nat)
    /\ (forall e, In e new ->
        (exists rest,
           zap.fields e
           = handlers.logger h
             ++ ("request_id", requestID) :: ("handler", "CreateJob") :: rest)
        /\ (zap.level e = zap.InfoLevel
            <-> http.Status out.1 = Some http.StatusCreated))
    /\ map (json.member "request_id") (http.Body out.1) = [Some requestID].
Proof.
  intros out requestID. subst out.
  destruct (request_cases r)
    as [Hm|[(Hm & err & Hd)|[(Hm & req & err & Hd & Hv)|(req & Hv)]]].
  - exists []. rewrite world_method_not_allowed, CreateJob_method_not_allowed
      by exact Hm.
    cbn [handlers.logged]. rewrite app_nil_r.
    repeat split; contradiction.
  - exists [zap.entry (more.request_logger h requestID) zap.ErrorLevel
              "failed to decode request body" [("error", Error err)]].
    rewrite (world_bad_body h r σ err Hm Hd), (CreateJob_bad_body h r σ err Hm Hd).
    split; [reflexivity|]. split; [intros Hne; contradiction|].
    split; [reflexivity|]. split; [|reflexivity].
    intros e [<-|[]]. split; [|split; discriminate].
    eexists. unfold zap.entry, more.request_logger, zap.With.
    cbn [zap.fields]. rewrite <- app_assoc. reflexivity.
  - exists [zap.entry (more.request_logger h requestID) zap.ErrorLevel
              "request validation failed" [("error", Error err)]].
    rewrite (CreateJob_invalid h r σ req err Hm Hd Hv).
    split; [reflexivity|]. split; [intros Hne; contradiction|].
    split; [reflexivity|]. split; [|reflexivity].
    intros e [<-|[]]. split; [|split; discriminate].
    eexists. unfold zap.entry, more.request_logger, zap.With.
    cbn [zap.fields]. rewrite <- app_assoc. reflexivity.
  - pose proof (world_valid h r σ req Hv) as Hlog. cbv zeta in Hlog.
    destruct (CreateJob_valid h r σ req Hv) as (Hout & _).
    pose proof Hv as (Hm & _).
    eexists. split; [exact Hlog|]. split; [intros Hne; contradiction|].
    split; [reflexivity|]. rewrite Hout.
    destruct (gmaps.Push _ _ _).1 as [err|]; (split; [|reflexivity]);
      intros e [<-|[]]; (split; [|split; (discriminate || reflexivity)]);
      eexists; unfold zap.entry, more.request_logger, zap.With;
      cbn [zap.fields]; rewrite <- app_assoc; reflexivity.
Qed.

(** X4. When the push of a valid request fails, the one entry logged is an
    error entry "failed to push job" that records the provider's error text
    and the identifier generated for the job (which the response hides). *)
Theorem push_failure_is_logged_with_job_id
    (Q : Type) (P : gmaps.Provider Q) (h : handlers.JobHandler)
    (r : handlers.Request) (req : handlers.CreateJobRequest)
    (σ : handlers.World Q) (err : error) :
  spec.valid r req ->
  let requestID := spec.next_id σ 0 in
  let jobID := spec.next_id σ 1 in
  (gmaps.Push (handlers.Ctx r) (spec.job_of req jobID) (handlers.queue σ)).1
    = Some err ->
  let out := handlers.CreateJob h http.newResponseWriter r σ in
  handlers.logged out.2
  = handlers.logged σ
    ++ [{| zap.level := zap.ErrorLevel;
           zap.message := "failed to push job";
           zap.fields := handlers.logger h
                         ++ [("request_id", requestID); ("handler", "CreateJob");
                             ("error", Error err); ("job_id", jobID)] |}]
  /\ map (json.member "job_id") (http.Body out.1) = [Some ""].
Proof.
  intros Hv requestID jobID Hp out. subst out.
  pose proof (world_valid h r σ req Hv) as Hlog. cbv zeta in Hlog.
  destruct (CreateJob_valid h r σ req Hv) as (Hout & _).
  fold jobID requestID in Hlog, Hout. rewrite Hp in Hlog, Hout.
  rewrite Hlog, Hout. split; [|reflexivity].
  unfold zap.entry, more.request_logger, zap.With.
  now rewrite <- app_assoc.
Qed.

Lemma push_failure_is_logged_with_job_id_witness :
  let out := @handlers.CreateJob _ sample.downQueue sample.handler
               http.newResponseWriter (sample.post sample.good_request)
               (sample.world tt) in
  map zap.fields (handlers.logged out.2)
  = [[("request_id", "005bc10e-772a-4d10-9f3c-0042ac120002");
      ("handler", "CreateJob");
      ("error", "dial tcp: connection refused");
      ("job_id", "015bc10e-772a-4d10-9f3c-0042ac120002")]].
Proof.
  intros out.
  destruct (push_failure_is_logged_with_job_id _ sample.downQueue sample.handler
              (sample.post sample.good_request) sample.good_request
              (sample.world tt) (errorString "dial tcp: connection refused")
              (conj eq_refl (conj eq_refl eq_refl)) eq_refl)
    as (Hlog & _).
  fold out in Hlog. rewrite Hlog. reflexivity.
Defined.

(** ** What [validate] accepts *)

Section Acceptance.
Import handlers.

Lemma validate_conditions (req : CreateJobRequest) :
  validate req = None
  <-> strings.TrimSpace (Query req) <> ""
      /\ strings.TrimSpace (Language req) <> ""
      /\ 0 <= MaxDepth req <= 10
      /\ 0 <= Zoom req <= 21.
Proof.
  unfold validate.
  destruct (String.eqb_spec (strings.TrimSpace (Query req)) "") as [Hq|Hq];
    destruct (String.eqb_spec (strings.TrimSpace (Language req)) "") as [Hl|Hl];
    destruct (Z.ltb_spec (MaxDepth req) 0);
    destruct (Z.ltb_spec (Zoom req) 0);
    rewrite ?Z.gtb_ltb;
    destruct (Z.ltb_spec 10 (MaxDepth req));
    destruct (Z.ltb_spec 21 (Zoom req));
    cbn; split; try discriminate; try (intros (? & ? & ? & ?); congruence || lia);
    intros _; repeat split; assumption || lia.
Qed.

(** The bytes of the white-space runes of two and three bytes are not
    ASCII. *)
Lemma space2_not_ascii (a b : ascii) :
  strings.space2 a b = true ->
  (128 <= N_of_ascii a)%N /\ (128 <= N_of_ascii b)%N.
Proof.
  unfold strings.space2.
  repeat match goal with
         | |- context [N.eqb ?x ?y] => destruct (N.eqb_spec x y)
         end; cbn; intros; try discriminate; lia.
Qed.

Lemma space3_not_ascii (a b c : ascii) :
  strings.space3 a b c = true ->
  (128 <= N_of_ascii a)%N /\ (128 <= N_of_ascii b)%N /\ (128 <= N_of_ascii c)%N.
Proof.
  unfold strings.space3.
  repeat match goal with
         | |- context [N.eqb ?x ?y] => destruct (N.eqb_spec x y)
         | |- context [N.leb ?x ?y] => destruct (N.leb_spec x y)
         end; cbn; intros; try discriminate; lia.
Qed.

(** A text of ASCII white space only is trimmed to nothing. *)
Lemma TrimSpace_white (s : string) :
  Forall more.white (list_ascii_of_string s) -> strings.TrimSpace s = "".
Proof.
  intros Hall. unfold strings.TrimSpace.
  assert (Hleft : strings.TrimLeftSpace s = "").
  { induction s as [|a s IH]; [reflexivity|].
    cbn [list_ascii_of_string] in Hall. inversion Hall as [|? ? Ha Hs]; subst.
    cbn [strings.TrimLeftSpace]. unfold more.white in Ha. rewrite Ha. now apply IH. }
  now rewrite Hleft.
Qed.

(** Trimming on the left keeps every printable ASCII byte. *)
Lemma TrimLeftSpace_keeps (c : ascii) :
  more.printable c ->
  forall n s, (String.length s <= n)%nat ->
    In c (list_ascii_of_string s) ->
    In c (list_ascii_of_string (strings.TrimLeftSpace s)).
Proof.
  intros [Hc Hns]. induction n as [|n IH]; intros s Hlen Hin.
  { destruct s; [exact Hin | cbn in Hlen; lia]. }
  destruct s as [|a s1]; [exact Hin|].
  cbn [strings.TrimLeftSpace].
  destruct (strings.asciiSpace a) eqn:Ha.
  { apply IH; [cbn in Hlen; lia|]. destruct Hin as [<-|Hin]; [congruence | exact Hin]. }
  destruct s1 as [|b s2]; [exact Hin|].
  destruct (strings.space2 a b) eqn:H2.
  { apply space2_not_ascii in H2 as [? ?].
    apply IH; [cbn in Hlen; lia|].
    destruct Hin as [<-|[<-|Hin]]; [lia | lia | exact Hin]. }
  destruct s2 as [|d s3]; [exact Hin|].
  destruct (strings.space3 a b d) eqn:H3; [|exact Hin].
  apply space3_not_ascii in H3 as (? & ? & ?).
  apply IH; [cbn in Hlen; lia|].
  destruct Hin as [<-|[<-|[<-|Hin]]]; [lia | lia | lia | exact Hin].
Qed.

(** ... and so does trimming on the right. *)
Lemma dropSpaceRev_keeps (c : ascii) :
  more.printable c ->
  forall n l, (length l <= n)%nat -> In c l -> In c (strings.dropSpaceRev l).
Proof.
  intros [Hc Hns]. induction n as [|n IH]; intros l Hlen Hin.
  { destruct l; [exact Hin | cbn in Hlen; lia]. }
  destruct l as [|a l1]; [exact Hin|].
  cbn [strings.dropSpaceRev].
  destruct (strings.asciiSpace a) eqn:Ha.
  { apply IH; [cbn in Hlen; lia|]. destruct Hin as [<-|Hin]; [congruence | exact Hin]. }
  destruct l1 as [|b l2]; [exact Hin|].
  destruct (strings.space2 b a) eqn:H2.
  { apply space2_not_ascii in H2 as [? ?].
    apply IH; [cbn in Hlen; lia|].
    destruct Hin as [<-|[<-|Hin]]; [lia | lia | exact Hin]. }
  destruct l2 as [|d l3]; [exact Hin|].
  destruct (strings.space3 d b a) eqn:H3; [|exact Hin].
  apply space3_not_ascii in H3 as (? & ? & ?).
  apply IH; [cbn in Hlen; lia|].
  destruct Hin as [<-|[<-|[<-|Hin]]]; [lia | lia | lia | exact Hin].
Qed.

(** A text with a printable ASCII byte is not trimmed to nothing. *)
Lemma TrimSpace_printable (s : string) :
  Exists more.printable (list_ascii_of_string s) -> strings.TrimSpace s <> "".
Proof.
  intros Hex Heq. apply Exists_exists in Hex as (c & Hin & Hc).
  apply (TrimLeftSpace_keeps c Hc _ s (le_n _)) in Hin.
  unfold strings.TrimSpace, strings.TrimRightSpace in Heq.
  apply in_rev in Hin.
  apply (dropSpaceRev_keeps c Hc _ _ (le_n _)) in Hin.
  apply in_rev in Hin.
  apply (f_equal list_ascii_of_string) in Heq.
  rewrite list_ascii_of_string_of_list_ascii in Heq. cbn in Heq.
  rewrite Heq in Hin. destruct Hin.
Qed.

(** With a body that decodes, the answer is 400 exactly for POST and a
    violated rule. *)
Lemma bad_request_conditions {Q : Type} `{!gmaps.Provider Q}
    (h : JobHandler) (r : Request) (req : CreateJobRequest) (σ : World Q) :
  Decode r = Ok req ->
  http.Status (CreateJob h http.newResponseWriter r σ).1 = Some 400
  <-> Method r = http.MethodPost /\ validate req <> None.
Proof.
  intros Hd.
  destruct (decide (Method r = http.MethodPost)) as [Hm|Hm].
  2: { rewrite CreateJob_method_not_allowed by exact Hm.
       split; [discriminate | tauto]. }
  destruct (validate req) as [err|] eqn:Hv.
  - rewrite (CreateJob_invalid h r σ req err Hm Hd Hv). split; [|reflexivity].
    intros _. split; [exact Hm | discriminate].
  - destruct (CreateJob_valid h r σ req (conj Hm (conj Hd Hv))) as (Hout & _).
    rewrite Hout. destruct (gmaps.Push _ _ _).1; (split; [discriminate|]);
      intros [_ Hn]; now destruct Hn.
Qed.

End Acceptance.

(** X5. The two fields [validate] does not read never cause a rejection:
    for a body that decodes, the answer is 400 for a request exactly when it
    is 400 for the same request with any other extract_email flag and
    geo_coordinates text (the coordinates are not checked at all). *)
Theorem optional_fields_never_rejected
    (Q : Type) (P : gmaps.Provider Q) (h : handlers.JobHandler)
    (r r' : handlers.Request) (req : handlers.CreateJobRequest)
    (extractEmail : bool) (geoCoords : string) (σ σ' : handlers.World Q) :
  handlers.Method r' = handlers.Method r ->
  handlers.Decode r = Ok req ->
  handlers.Decode r' = Ok (more.with_optional req extractEmail geoCoords) ->
  handlers.validate (more.with_optional req extractEmail geoCoords)
  = handlers.validate req
  /\ (http.Status (handlers.CreateJob h http.newResponseWriter r σ).1 = Some 400
      <-> http.Status (handlers.CreateJob h http.newResponseWriter r' σ').1
          = Some 400).
Proof.
  intros Hm Hd Hd'.
  assert (Hv : handlers.validate (more.with_optional req extractEmail geoCoords)
               = handlers.validate req) by reflexivity.
  split; [exact Hv|].
  rewrite (bad_request_conditions h r req σ Hd).
  rewrite (bad_request_conditions h r' _ σ' Hd').
  now rewrite Hm, Hv.
Qed.

Lemma optional_fields_never_rejected_witness :
  handlers.validate
    (more.with_optional sample.good_request false "not a coordinate") = None.
Proof.
  destruct (optional_fields_never_rejected _ sample.memQueue sample.handler
              (sample.post sample.good_request)
              (sample.post (more.with_optional sample.good_request false
                              "not a coordinate"))
              sample.good_request false "not a coordinate"
              (sample.world []) (sample.world []) eq_refl eq_refl eq_refl)
    as (Hv & _).
  rewrite Hv. reflexivity.
Defined.

(** X6. [validate] accepts a request exactly when the query and the language
    are not empty after trimming, max_depth is between 0 and 10 and zoom
    between 0 and 21, both bounds included. *)
Theorem validate_accepts_exactly (req : handlers.CreateJobRequest) :
  handlers.validate req = None
  <-> strings.TrimSpace (handlers.Query req) <> ""
      /\ strings.TrimSpace (handlers.Language req) <> ""
      /\ 0 <= handlers.MaxDepth req <= 10
      /\ 0 <= handlers.Zoom req <= 21.
Proof. apply validate_conditions. Qed.

(** X7. A query that is empty or made of ASCII white space only (space, tab,
    newline, vertical tab, form feed, carriage return) is rejected, and
    "query is required" is the first rule the message lists. *)
Theorem blank_query_is_rejected (req : handlers.CreateJobRequest) :
  Forall more.white (list_ascii_of_string (handlers.Query req)) ->
  exists rest,
    handlers.validate req
    = Some (errorString ("validation failed: query is required" +:+ rest)).
Proof.
  intros Hall. apply TrimSpace_white in Hall.
  unfold handlers.validate. rewrite Hall. cbn [String.eqb].
  destruct (String.eqb (strings.TrimSpace (handlers.Language req)) "");
    destruct ((handlers.MaxDepth req <? 0) || (handlers.MaxDepth req >? 10));
    destruct ((handlers.Zoom req <? 0) || (handlers.Zoom req >? 21));
    eexists; reflexivity.
Qed.

Lemma blank_query_is_rejected_witness :
  handlers.validate (more.with_optional
                       {| handlers.Query := "   "; handlers.Language := "en";
                          handlers.MaxDepth := 0; handlers.ExtractEmail := false;
                          handlers.GeoCoords := ""; handlers.Zoom := 21 |}
                       false "")
  = Some (errorString "validation failed: query is required").
Proof.
  destruct (blank_query_is_rejected
              (more.with_optional
                 {| handlers.Query := "   "; handlers.Language := "en";
                    handlers.MaxDepth := 0; handlers.ExtractEmail := false;
                    handlers.GeoCoords := ""; handlers.Zoom := 21 |} false ""))
    as (rest & Hv).
  - repeat constructor.
  - reflexivity.
Defined.

(** X8. A request whose query and language each contain a printable ASCII
    byte, with max_depth in 0..10 and zoom in 0..21, is accepted, whatever
    other bytes and surrounding white space the two texts have. *)
Theorem printable_request_is_accepted (req : handlers.CreateJobRequest) :
  Exists more.printable (list_ascii_of_string (handlers.Query req)) ->
  Exists more.printable (list_ascii_of_string (handlers.Language req)) ->
  0 <= handlers.MaxDepth req <= 10 ->
  0 <= handlers.Zoom req <= 21 ->
  handlers.validate req = None.
Proof.
  intros Hq Hl Hd Hz. apply validate_conditions.
  split; [now apply TrimSpace_printable|].
  split; [now apply TrimSpace_printable|]. now split.
Qed.

Lemma printable_request_is_accepted_witness :
  handlers.validate sample.good_request = None.
Proof.
  apply printable_request_is_accepted.
  - apply Exists_cons_hd. split; [cbn; lia | reflexivity].
  - apply Exists_cons_hd. split; [cbn; lia | reflexivity].
  - cbn. lia.
  - cbn. lia.
Defined.

(** X9. For a response whose four fields are ASCII text, the encoder emits
    job_id, status and request_id with the field values, and message exactly
    when it is not empty; and among such responses the body determines the
    response (an omitted message is not ambiguous). *)
Theorem response_encoding_is_injective (r1 : handlers.CreateJobResponse) :
  more.ascii_response r1 ->
  (exists o,
     json.Marshal r1 = Ok o
     /\ json.keys o
        = (if String.eqb (handlers.Message r1) ""
           then ["job_id"; "status"; "request_id"]
           else ["job_id"; "status"; "message"; "request_id"])
     /\ json.member "job_id" o = Some (handlers.JobID r1)
     /\ json.member "status" o = Some (handlers.Status r1)
     /\ json.member "request_id" o = Some (handlers.RequestID r1))
  /\ (forall r2, more.ascii_response r2 ->
      json.Marshal r1 = json.Marshal r2 -> r1 = r2).
Proof.
  intros _. destruct r1 as [j1 s1 m1 q1]. split.
  - eexists. split; [reflexivity|].
    unfold json.field. cbn [handlers.Message handlers.JobID handlers.Status
                            handlers.RequestID andb].
    destruct (String.eqb m1 ""); repeat split.
  - intros [j2 s2 m2 q2] _.
    unfold json.Marshal, handlers.CreateJobResponse_Marshaler, json.field.
    cbn [handlers.Message handlers.JobID handlers.Status handlers.RequestID andb].
    destruct (String.eqb_spec m1 ""), (String.eqb_spec m2 "");
      cbn; intros [=]; subst; reflexivity.
Qed.

Lemma response_encoding_is_injective_witness :
  let r := {| handlers.JobID := "";
              handlers.Status := "error";
              handlers.Message := "";
              handlers.RequestID := "005bc10e-772a-4d10-9f3c-0042ac120002" |} in
  more.ascii_response r
  /\ exists o, json.Marshal r = Ok o
               /\ json.keys o = ["job_id"; "status"; "request_id"].
Proof.
  intros r.
  assert (Ha : more.ascii_response r) by (repeat split; reflexivity).
  split; [exact Ha|].
  destruct (response_encoding_is_injective r Ha) as ((o & Ho & Hk & _) & _).
  exists o. split; [exact Ho | exact Hk].
Defined.

(** ** Every interleaving of [main] and its goroutines *)

Section Threads.
Import proc runner main.
Variable E : Env.

(** The events of the goroutines are of six kinds. *)
Lemma goroutine_kinds (t : Tid) (e : Event) :
  In e (body E t) -> t <> TMain -> more.of_goroutine e = true.
Proof.
  intros Hin Ht. destruct t; [contradiction | |].
  - rewrite signal_body in Hin. cbn in Hin.
    destruct Hin as [<-|[<-|[<-|[]]]]; reflexivity.
  - rewrite server_body in Hin.
    destruct (ListenAndServe E) as [e'|];
      [destruct (decide (e' = ErrServerClosed))|]; cbn in Hin;
      repeat (destruct Hin as [<-|Hin]; [reflexivity|]); destruct Hin.
Qed.

(** The entries of a kind that no goroutine goes through are those among
    the events of [main]. *)
Lemma those_of_main (P : Event -> bool) (h : list (Tid * Event)) :
  (forall t e, In (t, e) h -> t <> TMain -> P e = false) ->
  more.those P h = map (pair TMain) (List.filter P (events_of TMain h)).
Proof.
  induction h as [|[t e] h IH]; intros Hothers; [reflexivity|].
  assert (IH' := IH (fun t e Hin => Hothers t e (or_intror Hin))).
  unfold more.those, events_of in *. cbn [List.filter fst snd].
  destruct (decide (t = TMain)) as [->|Hne].
  - rewrite bool_decide_eq_true_2 by reflexivity. cbn [map snd List.filter].
    destruct (P e); cbn [map]; now rewrite IH'.
  - rewrite bool_decide_eq_false_2 by exact Hne.
    rewrite (Hothers t e (or_introl eq_refl) Hne). exact IH'.
Qed.

Lemma main_only (P : Event -> bool) (sched : list Tid) (h : list (Tid * Event)) :
  (forall e, more.of_goroutine e = true -> P e = false) ->
  (forall te, In te h -> In te (history (exec E sched))) ->
  forall t e, In (t, e) h -> t <> TMain -> P e = false.
Proof.
  intros HP Hsub t e Hin Hne. apply HP.
  apply Hsub, history_in_body in Hin. now apply goroutine_kinds in Hin.
Qed.

(** Filtering a beginning of a list gives no more than filtering the list. *)
Lemma filter_take_length {A} (P : A -> bool) (n : nat) (l : list A) :
  (length (List.filter P (take n l)) <= length (List.filter P l))%nat.
Proof.
  rewrite <- (take_drop n l) at 2. rewrite List.filter_app, length_app. lia.
Qed.

(** An element that alone satisfies [P] splits the list in one way. *)
Lemma unique_split {A} (P : A -> bool) (pre post a b : list A) (x y : A) :
  pre ++ x :: post = a ++ y :: b ->
  (forall e, In e pre -> P e = false) ->
  (forall e, In e post -> P e = false) ->
  P y = true ->
  a = pre /\ y = x /\ b = post.
Proof.
  revert a. induction pre as [|p pre IH]; intros a Heq Hpre Hpost Hy.
  - destruct a as [|a0 a]; cbn in Heq.
    + injection Heq as -> ->. repeat split.
    + injection Heq as -> ->.
      rewrite (Hpost y) in Hy; [discriminate|].
      apply in_or_app. right. now left.
  - destruct a as [|a0 a]; cbn in Heq.
    + injection Heq as <- _. rewrite (Hpre p) in Hy; [discriminate | now left].
    + injection Heq as <- Heq.
      destruct (IH a Heq (fun e H => Hpre e (or_intror H)) Hpost Hy)
        as (-> & -> & ->).
      repeat split.
Qed.

(** The events of one thread in a history that is cut in two. *)
Lemma events_of_app (t : Tid) (h1 h2 : list (Tid * Event)) :
  events_of t (h1 ++ h2) = events_of t h1 ++ events_of t h2.
Proof. unfold events_of. now rewrite List.filter_app, map_app. Qed.

(** Where the history is cut at an event of [main], the code of [main] is
    cut at the same event. *)
Lemma main_code_at (sched : list Tid) (h1 h2 : list (Tid * Event)) (e : Event) :
  history (exec E sched) = h1 ++ (TMain, e) :: h2 ->
  exists rest, trace (main E) = events_of TMain h1 ++ e :: rest.
Proof.
  intros Hh. pose proof (history_follows_code E sched TMain) as Hfol.
  rewrite Hh, events_of_app in Hfol.
  change (events_of TMain ((TMain, e) :: h2)) with (e :: events_of TMain h2) in Hfol.
  exists (events_of TMain h2 ++ drop (pc (exec E sched) TMain) (trace (main E))).
  rewrite <- (take_drop (pc (exec E sched) TMain) (trace (main E))) at 1.
  unfold body in Hfol. rewrite <- Hfol, <- app_assoc. reflexivity.
Qed.

(** A thread with an event in the history was started. *)
Lemma events_need_start (sched : list Tid) (t : Tid) (e : Event) :
  In (t, e) (history (exec E sched)) -> started (exec E sched) t = true.
Proof.
  revert t e. apply exec_ind with (P := fun s => forall t e,
    In (t, e) (history s) -> started s t = true).
  - intros t e [].
  - intros s t IH.
    destruct (run_cases E s t)
      as [->|(e & _ & Hst & _ & Hh & _ & _ & _ & Hst')]; [exact IH|].
    intros t' e' Hin. rewrite Hh in Hin. apply in_app_or in Hin.
    assert (Hold : started s t' = true).
    { destruct Hin as [Hin|[[= <- <-]|[]]]; [now apply (IH t' e') | exact Hst]. }
    rewrite Hst'. destruct e; try exact Hold.
    destruct (decide (g = t')) as [->|Hg];
      [apply fn_lookup_insert | now rewrite fn_lookup_insert_ne].
Qed.

(** A goroutine is started by a [go] statement of [main]. *)
Lemma started_by_main (sched : list Tid) (g : Tid) :
  started (exec E sched) g = true ->
  g = TMain \/ In (EGo g) (trace (main E)).
Proof.
  assert (H : started (exec E sched) g = true ->
              g = TMain \/ exists t, In (t, EGo g) (history (exec E sched))).
  { apply exec_ind with (P := fun s =>
      started s g = true -> g = TMain \/ exists t, In (t, EGo g) (history s)).
    - unfold init. cbn. intros Hg. left. now apply bool_decide_eq_true_1 in Hg.
    - intros s t IH.
      destruct (run_cases E s t)
        as [->|(e & _ & _ & _ & Hh & _ & _ & _ & Hst')]; [exact IH|].
      rewrite Hh, Hst'. intros Hg.
      assert (Hcases : started s g = true \/ e = EGo g).
      { destruct e; auto.
        destruct (decide (g0 = g)) as [->|Hne]; [now right|].
        left. now rewrite fn_lookup_insert_ne in Hg. }
      destruct Hcases as [Hold | ->].
      + destruct (IH Hold) as [?|[t' Hin]]; [now left|].
        right. exists t'. apply in_or_app. now left.
      + right. exists t. apply in_or_app. right. now left. }
  intros Hg. destruct (H Hg) as [?|[t Hin]]; [now left|]. right.
  pose proof (history_in_body E sched t _ Hin) as Hb.
  destruct (decide (t = TMain)) as [->|Hne]; [exact Hb|].
  apply goroutine_kinds in Hb; [discriminate Hb | exact Hne].
Qed.

End Threads.

(** X10. In every interleaving that has reached the exit, the telemetry sink
    was closed exactly once when [sql.Open] succeeded, and never when it
    failed: [log.Fatal] ends the process without that step. *)
Theorem telemetry_closed_once_unless_fatal
    (E : main.Env) (sched : list proc.Tid) (c : Z) :
  let s := main.exec E sched in
  main.exited s = Some c ->
  more.those more.is_TelemetryClose (main.history s)
  = match main.sql_Open E "pgx" (runner.Dsn (main.ParseConfig E)) with
    | Some _ => []
    | None => [(proc.TMain, proc.ETelemetryClose)]
    end.
Proof.
  intros s Hx.
  rewrite those_of_main
    by (apply (main_only E _ sched); [intros e; now destruct e | auto]).
  destruct (exit_is_by_main E sched c Hx) as (_ & Hmain & _).
  fold s in Hmain. rewrite Hmain.
  pose proof (main_cases E) as Hc. cbv zeta in Hc.
  destruct (main.sql_Open E "pgx" _);
    [|destruct (main.runnerFactory _ _ _) as [r|];
      [destruct (runner.Run r Root)|]];
    rewrite Hc; reflexivity.
Qed.

Lemma telemetry_closed_once_unless_fatal_witness :
  let E := sample.env 1 (Some (errorString "sql: unknown driver")) None None in
  let s := main.exec E (replicate 8 proc.TMain) in
  main.exited s = Some 1
  /\ more.those more.is_TelemetryClose (main.history s) = [].
Proof.
  intros E s. split; [reflexivity|].
  exact (telemetry_closed_once_unless_fatal E (replicate 8 proc.TMain) 1 eq_refl).
Defined.

(** X11. In every interleaving that has reached the exit, the direct calls of
    [os.Stderr.WriteString] are: none when [sql.Open] failed (that error is
    reported by [log.Fatal]) or when [Run] returned nil; and otherwise
    exactly one, by [main], with the text of the error that resolution or
    [Run] returned, followed by a newline. *)
Theorem error_text_is_written_once
    (E : main.Env) (sched : list proc.Tid) (c : Z) :
  let s := main.exec E sched in
  let cfg := main.ParseConfig E in
  main.exited s = Some c ->
  more.those more.is_WriteString (main.history s)
  = match main.sql_Open E "pgx" (runner.Dsn cfg) with
    | Some _ => []
    | None =>
      match main.runnerFactory (main.modes E) (main.news E) cfg with
      | Err err => [(proc.TMain, proc.EStderr (Error err +:+ fmt.newline))]
      | Ok r =>
        match runner.Run r Root with
        | Some err => [(proc.TMain, proc.EStderr (Error err +:+ fmt.newline))]
        | None => []
        end
      end
    end.
Proof.
  intros s cfg Hx.
  rewrite those_of_main
    by (apply (main_only E _ sched); [intros e; now destruct e | auto]).
  destruct (exit_is_by_main E sched c Hx) as (_ & Hmain & _).
  fold s in Hmain. rewrite Hmain.
  pose proof (main_cases E) as Hc. cbv zeta in Hc. fold cfg in Hc.
  destruct (main.sql_Open E "pgx" _);
    [|destruct (main.runnerFactory _ _ _) as [r|];
      [destruct (runner.Run r Root)|]];
    rewrite Hc; reflexivity.
Qed.

Lemma error_text_is_written_once_witness :
  let E := sample.env 99 None None None in
  let s := main.exec E (replicate 14 proc.TMain) in
  main.exited s = Some 1
  /\ map snd (more.those more.is_WriteString (main.history s))
     = [proc.EStderr ("invalid run mode: 99" +:+ fmt.newline)].
Proof.
  intros E s. split; [reflexivity|].
  unfold s.
  rewrite (error_text_is_written_once E (replicate 14 proc.TMain) 1 eq_refl).
  reflexivity.
Defined.

(** X12. In every interleaving that has reached the exit, [main] has
    cancelled the root context exactly when [sql.Open] succeeded, and then
    the root context is cancelled at the exit. *)
Theorem main_cancels_before_exit
    (E : main.Env) (sched : list proc.Tid) (c : Z) :
  let s := main.exec E sched in
  main.exited s = Some c ->
  (In (proc.TMain, proc.ECancel Root) (main.history s)
   <-> main.sql_Open E "pgx" (runner.Dsn (main.ParseConfig E)) = None)
  /\ (main.sql_Open E "pgx" (runner.Dsn (main.ParseConfig E)) = None ->
      In Root (main.cancelled s)).
Proof.
  intros s Hx.
  destruct (exit_is_by_main E sched c Hx) as (_ & Hmain & _). fold s in Hmain.
  assert (Hiff : In (proc.TMain, proc.ECancel Root) (main.history s)
                 <-> main.sql_Open E "pgx" (runner.Dsn (main.ParseConfig E)) = None).
  { rewrite in_events_of, Hmain.
    pose proof (main_cases E) as Hc. cbv zeta in Hc.
    destruct (main.sql_Open E "pgx" _);
      [|destruct (main.runnerFactory _ _ _) as [r|];
        [destruct (runner.Run r Root)|]];
      rewrite Hc; cbn; split; try discriminate; try tauto.
    intros Hin. repeat (destruct Hin as [Hin|Hin]; [discriminate Hin|]).
    destruct Hin. }
  split; [exact Hiff|].
  intros Ho. apply Hiff in Ho.
  unfold s. rewrite cancelled_history. fold s.
  apply (proj1 (in_rev _ _)). unfold main.cancels. apply in_flat_map.
  exists (proc.TMain, proc.ECancel Root). split; [exact Ho | now left].
Qed.

Lemma main_cancels_before_exit_witness :
  let E := sample.env 1 None None None in
  let s := main.exec E (replicate 16 proc.TMain) in
  main.exited s = Some 0 /\ In Root (main.cancelled s).
Proof.
  intros E s. split; [reflexivity|].
  exact (proj2 (main_cancels_before_exit E (replicate 16 proc.TMain) 0 eq_refl)
           eq_refl).
Defined.

(** X13. When [sql.Open] fails, the web server is never started: in no
    interleaving is the server goroutine started, and the history has no
    event of it (the process never listens). *)
Theorem no_server_without_database
    (E : main.Env) (sched : list proc.Tid) (err : error) :
  let s := main.exec E sched in
  main.sql_Open E "pgx" (runner.Dsn (main.ParseConfig E)) = Some err ->
  main.started s proc.TServer = false
  /\ main.events_of proc.TServer (main.history s) = []
  /\ forall t e, In (t, e) (main.history s) -> t <> proc.TServer.
Proof.
  intros s Ho.
  assert (Hst : main.started s proc.TServer = false).
  { destruct (main.started s proc.TServer) eqn:Hst; [|reflexivity].
    destruct (started_by_main E sched _ Hst) as [Habs|Hin]; [discriminate Habs|].
    pose proof (main_cases E) as Hc. cbv zeta in Hc. rewrite Ho in Hc.
    rewrite Hc in Hin. cbn in Hin.
    repeat (destruct Hin as [Hin|Hin]; [discriminate Hin|]). destruct Hin. }
  assert (Hno : forall t e, In (t, e) (main.history s) -> t <> proc.TServer).
  { intros t e Hin ->. apply events_need_start in Hin. fold s in Hin. congruence. }
  split; [exact Hst|]. split; [|exact Hno].
  destruct (main.events_of proc.TServer (main.history s)) as [|e l] eqn:Hev;
    [reflexivity|].
  exfalso. apply (Hno proc.TServer e); [|reflexivity].
  apply in_events_of. rewrite Hev. now left.
Qed.

Lemma no_server_without_database_witness :
  let E := sample.env 1 (Some (errorString "sql: unknown driver")) None None in
  let s := main.exec E [proc.TMain; proc.TServer; proc.TMain; proc.TMain;
                        proc.TServer; proc.TMain; proc.TMain; proc.TMain;
                        proc.TServer; proc.TMain; proc.TMain; proc.TServer] in
  main.exited s = Some 1 /\ main.started s proc.TServer = false.
Proof.
  intros E s. split; [reflexivity|].
  exact (proj1 (no_server_without_database E _ (errorString "sql: unknown driver") eq_refl)).
Defined.

(** X14. Once the signal goroutine has run to its end (a signal arrived), the
    root context is cancelled; the goroutine does not end the process:
    whether it has exited is as after the steps of [main] alone. *)
Theorem signal_cancels_root (E : main.Env) (sched : list proc.Tid) :
  let s := main.exec E sched in
  main.finished E s proc.TSignal ->
  In (proc.TSignal, proc.ECancel Root) (main.history s)
  /\ In Root (main.cancelled s)
  /\ main.exited s = main.exited (main.exec E (main.main_steps sched)).
Proof.
  intros s (Hst & Hpc).
  assert (Hin : In (proc.TSignal, proc.ECancel Root) (main.history s)).
  { apply in_events_of. unfold s. rewrite history_follows_code.
    fold s. rewrite Hpc, firstn_all, signal_body. cbn. tauto. }
  split; [exact Hin|]. split.
  - unfold s. rewrite cancelled_history. fold s.
    apply (proj1 (in_rev _ _)). unfold main.cancels. apply in_flat_map.
    exists (proc.TSignal, proc.ECancel Root). split; [exact Hin | now left].
  - now destruct (main_runs_alone E sched) as (_ & Hx & _).
Qed.

Lemma signal_cancels_root_witness :
  let E := sample.env 5 None None None in
  let s := main.exec E (replicate 11 proc.TMain ++ replicate 3 proc.TSignal) in
  main.finished E s proc.TSignal
  /\ In Root (main.cancelled s)
  /\ main.exited s = None.
Proof.
  intros E s.
  assert (Hfin : main.finished E s proc.TSignal) by (split; reflexivity).
  split; [exact Hfin|].
  destruct (signal_cancels_root E _ Hfin) as (_ & Hc & _).
  split; [exact Hc | reflexivity].
Defined.

(** X15. When [ListenAndServe] returns nil or [http.ErrServerClosed], the
    server goroutine ends without printing and without cancelling: in no
    interleaving does it cancel the root context. *)
Theorem closed_server_does_not_cancel (E : main.Env) (sched : list proc.Tid) :
  let s := main.exec E sched in
  main.ListenAndServe E = None \/ main.ListenAndServe E = Some ErrServerClosed ->
  main.body E proc.TServer
  = [proc.EZap "API server is running"; proc.EListenAndServe ":6060";
     proc.EListenReturned (main.ListenAndServe E)]
  /\ forall e, In (proc.TServer, e) (main.history s) ->
       more.is_Cancel e = false /\ more.is_Print e = false.
Proof.
  intros s Hl.
  assert (Hb : main.body E proc.TServer
               = [proc.EZap "API server is running"; proc.EListenAndServe ":6060";
                  proc.EListenReturned (main.ListenAndServe E)]).
  { rewrite server_body. destruct Hl as [->| ->]; reflexivity. }
  split; [exact Hb|].
  intros e Hin. apply history_in_body in Hin. rewrite Hb in Hin.
  destruct Hin as [<-|[<-|[<-|[]]]]; split; reflexivity.
Qed.

Lemma closed_server_does_not_cancel_witness :
  let E := sample.env 5 None (Some ErrServerClosed) None in
  let s := main.exec E (replicate 11 proc.TMain ++ replicate 5 proc.TServer) in
  main.finished E s proc.TServer /\ main.cancelled s = [].
Proof.
  intros E s.
  destruct (closed_server_does_not_cancel E
              (replicate 11 proc.TMain ++ replicate 5 proc.TServer)
              (or_intror eq_refl)) as (Hb & _).
  split; [split; [reflexivity | now rewrite Hb]|reflexivity].
Defined.

(** X16. In every interleaving, complete or not, [Run] was called at most
    once, has returned at most once, and [Close] was called at most once. *)
Theorem at_most_one_runner (E : main.Env) (sched : list proc.Tid) :
  let h := main.history (main.exec E sched) in
  (length (more.those main.is_Run h) <= 1)%nat
  /\ (length (more.those main.is_Close h) <= 1)%nat
  /\ (length (more.those main.is_RunReturned h) <= 1)%nat.
Proof.
  intros h.
  assert (Hbound : forall P : proc.Event -> bool,
            (forall e, more.of_goroutine e = true -> P e = false) ->
            (length (List.filter P (proc.trace (main.main E))) <= 1)%nat ->
            (length (more.those P h) <= 1)%nat).
  { intros P HP Hone.
    rewrite those_of_main by (apply (main_only E _ sched); auto).
    rewrite length_map. unfold h. rewrite history_follows_code.
    etransitivity; [apply filter_take_length | exact Hone]. }
  pose proof (main_cases E) as Hc. cbv zeta in Hc.
  repeat split; apply Hbound; try (intros e; now destruct e);
    (destruct (main.sql_Open E "pgx" _);
     [|destruct (main.runnerFactory _ _ _) as [r|];
       [destruct (runner.Run r Root)|]]);
    rewrite Hc; cbn; lia.
Qed.

(** X17. Wherever a call of [Close] stands in the history of an
    interleaving: it is [main]'s, on the root context; before it [Run] was
    called on the same runner and has returned; and before it there is no
    other [Close], the telemetry sink is not closed yet, and [main] has not
    cancelled the root context (a cancellation before [Close] can only come
    from a goroutine). *)
Theorem close_follows_run_and_precedes_cleanup
    (E : main.Env) (sched : list proc.Tid)
    (h1 h2 : list (proc.Tid * proc.Event))
    (t : proc.Tid) (r : runner.Runner) (ctx : Context) :
  main.history (main.exec E sched) = h1 ++ (t, proc.EClose r ctx) :: h2 ->
  t = proc.TMain /\ ctx = Root
  /\ In (proc.TMain, proc.ERun r Root) h1
  /\ In (proc.TMain, proc.ERunReturned (runner.Run r Root)) h1
  /\ more.those main.is_Close h1 = []
  /\ more.those more.is_TelemetryClose h1 = []
  /\ (forall t' c', In (t', proc.ECancel c') h1 -> t' <> proc.TMain).
Proof.
  intros Hh.
  assert (Hsub : forall te, In te h1 -> In te (main.history (main.exec E sched))).
  { intros te Hin. rewrite Hh. apply in_or_app. now left. }
  assert (Ht : t = proc.TMain).
  { destruct (decide (t = proc.TMain)) as [|Hne]; [assumption|].
    assert (Hin : In (t, proc.EClose r ctx) (main.history (main.exec E sched))).
    { rewrite Hh. apply in_or_app. right. now left. }
    apply history_in_body, goroutine_kinds in Hin; [discriminate Hin | exact Hne]. }
  subst t.
  destruct (main_code_at E sched h1 h2 _ Hh) as (rest & Heq).
  assert (Hclose : more.those main.is_Close h1
                   = map (pair proc.TMain)
                       (List.filter main.is_Close (main.events_of proc.TMain h1))).
  { apply those_of_main, (main_only E _ sched); [intros e; now destruct e | exact Hsub]. }
  assert (Htel : more.those more.is_TelemetryClose h1
                 = map (pair proc.TMain)
                     (List.filter more.is_TelemetryClose
                        (main.events_of proc.TMain h1))).
  { apply those_of_main, (main_only E _ sched); [intros e; now destruct e | exact Hsub]. }
  assert (Hcan : forall t' c', In (t', proc.ECancel c') h1 -> t' = proc.TMain ->
                   In (proc.ECancel c') (main.events_of proc.TMain h1)).
  { intros t' c' Hin ->. now apply in_events_of. }
  pose proof (main_cases E) as Hc. cbv zeta in Hc.
  set (cfg := main.ParseConfig E) in *.
  destruct (main.sql_Open E "pgx" (runner.Dsn cfg)).
  { exfalso. assert (Hin : In (proc.EClose r ctx) (proc.trace (main.main E))).
    { rewrite Heq. apply in_or_app. right. now left. }
    rewrite Hc in Hin. cbn in Hin.
    repeat (destruct Hin as [Hin|Hin]; [discriminate Hin|]). exact Hin. }
  destruct (main.runnerFactory _ _ cfg) as [r'|err].
  2: { exfalso. assert (Hin : In (proc.EClose r ctx) (proc.trace (main.main E))).
       { rewrite Heq. apply in_or_app. right. now left. }
       rewrite Hc in Hin. cbn in Hin.
       repeat (destruct Hin as [Hin|Hin]; [discriminate Hin|]). exact Hin. }
  destruct (runner.Run r' Root) as [err|] eqn:Hres; rewrite Hc in Heq.
  - apply (unique_split main.is_Close
             (main.startup cfg None ++ main.wiring
                ++ [proc.EResolve (runner.RunMode cfg) None; proc.ERun r' Root;
                    proc.ERunReturned (Some err);
                    proc.EStderr (Error err +:+ fmt.newline)])
             [proc.ETelemetryClose; proc.ECancel Root; proc.EExit 1])
      in Heq as (Hpre & [= -> ->] & _); [| | |reflexivity].
    + rewrite Hclose, Htel, Hpre, Hres.
      split; [reflexivity|]. split; [reflexivity|].
      split; [apply in_events_of; rewrite Hpre; cbn; tauto|].
      split; [apply in_events_of; rewrite Hpre; cbn; tauto|].
      split; [reflexivity|]. split; [reflexivity|].
      intros t' c' Hin ->. pose proof (Hcan _ _ Hin eq_refl) as Hin'.
      rewrite Hpre in Hin'. cbn in Hin'.
      repeat (destruct Hin' as [Hin'|Hin']; [discriminate Hin'|]). exact Hin'.
    + intros e Hin. cbn in Hin.
      repeat (destruct Hin as [<-|Hin]; [reflexivity|]). destruct Hin.
    + intros e Hin. cbn in Hin.
      repeat (destruct Hin as [<-|Hin]; [reflexivity|]). destruct Hin.
  - apply (unique_split main.is_Close
             (main.startup cfg None ++ main.wiring
                ++ [proc.EResolve (runner.RunMode cfg) None; proc.ERun r' Root;
                    proc.ERunReturned None])
             [proc.ETelemetryClose; proc.ECancel Root; proc.EExit 0])
      in Heq as (Hpre & [= -> ->] & _); [| | |reflexivity].
    + rewrite Hclose, Htel, Hpre, Hres.
      split; [reflexivity|]. split; [reflexivity|].
      split; [apply in_events_of; rewrite Hpre; cbn; tauto|].
      split; [apply in_events_of; rewrite Hpre; cbn; tauto|].
      split; [reflexivity|]. split; [reflexivity|].
      intros t' c' Hin ->. pose proof (Hcan _ _ Hin eq_refl) as Hin'.
      rewrite Hpre in Hin'. cbn in Hin'.
      repeat (destruct Hin' as [Hin'|Hin']; [discriminate Hin'|]). exact Hin'.
    + intros e Hin. cbn in Hin.
      repeat (destruct Hin as [<-|Hin]; [reflexivity|]). destruct Hin.
    + intros e Hin. cbn in Hin.
      repeat (destruct Hin as [<-|Hin]; [reflexivity|]). destruct Hin.
Qed.

Lemma close_follows_run_and_precedes_cleanup_witness :
  let E := sample.env 1 None None None in
  let r := sample.runner_returning None in
  let s := main.exec E (replicate 5 proc.TMain ++ replicate 3 proc.TSignal
                          ++ replicate 11 proc.TMain) in
  let h1 := take 15 (main.history s) in
  let h2 := drop 16 (main.history s) in
  main.history s = h1 ++ (proc.TMain, proc.EClose r Root) :: h2
  /\ In (proc.TSignal, proc.ECancel Root) h1
  /\ In (proc.TMain, proc.ERunReturned (runner.Run r Root)) h1
  /\ more.those more.is_TelemetryClose h1 = [].
Proof.
  intros E r s h1 h2.
  assert (Hh : main.history s = h1 ++ (proc.TMain, proc.EClose r Root) :: h2)
    by reflexivity.
  split; [exact Hh|]. split; [vm_compute; tauto|].
  destruct (close_follows_run_and_precedes_cleanup E _ h1 h2 proc.TMain r Root Hh)
    as (_ & _ & _ & Hret & _ & Htel & _).
  split; [exact Hret | exact Htel].
Defined.

(** X18. Wherever a call of [Run] stands in the history of an interleaving:
    it is [main]'s, on the root context, on the runner that [runnerFactory]
    resolved for the parsed configuration; [sql.Open] had succeeded; and
    [main] had before it started the signal goroutine and the server
    goroutine and done nothing else than its start-up (no cancel, no
    earlier [Run]). *)
Theorem run_is_of_the_resolved_runner
    (E : main.Env) (sched : list proc.Tid)
    (h1 h2 : list (proc.Tid * proc.Event))
    (t : proc.Tid) (r : runner.Runner) (ctx : Context) :
  let cfg := main.ParseConfig E in
  main.history (main.exec E sched) = h1 ++ (t, proc.ERun r ctx) :: h2 ->
  t = proc.TMain /\ ctx = Root
  /\ main.sql_Open E "pgx" (runner.Dsn cfg) = None
  /\ main.runnerFactory (main.modes E) (main.news E) cfg = Ok r
  /\ main.events_of proc.TMain h1
     = main.startup cfg None ++ main.wiring
       ++ [proc.EResolve (runner.RunMode cfg) None]
  /\ In (proc.TMain, proc.EGo proc.TSignal) h1
  /\ In (proc.TMain, proc.EGo proc.TServer) h1.
Proof.
  intros cfg Hh.
  assert (Ht : t = proc.TMain).
  { destruct (decide (t = proc.TMain)) as [|Hne]; [assumption|].
    assert (Hin : In (t, proc.ERun r ctx) (main.history (main.exec E sched))).
    { rewrite Hh. apply in_or_app. right. now left. }
    apply history_in_body, goroutine_kinds in Hin; [discriminate Hin | exact Hne]. }
  subst t.
  destruct (main_code_at E sched h1 h2 _ Hh) as (rest & Heq).
  pose proof (main_cases E) as Hc. cbv zeta in Hc. fold cfg in Hc.
  assert (Hin : In (proc.ERun r ctx) (proc.trace (main.main E))).
  { rewrite Heq. apply in_or_app. right. now left. }
  destruct (main.sql_Open E "pgx" (runner.Dsn cfg)).
  { exfalso. rewrite Hc in Hin. cbn in Hin.
    repeat (destruct Hin as [Hin|Hin]; [discriminate Hin|]). exact Hin. }
  destruct (main.runnerFactory _ _ cfg) as [r'|err].
  2: { exfalso. rewrite Hc in Hin. cbn in Hin.
       repeat (destruct Hin as [Hin|Hin]; [discriminate Hin|]). exact Hin. }
  clear Hin.
  assert (Hpre : main.events_of proc.TMain h1
                 = main.startup cfg None ++ main.wiring
                   ++ [proc.EResolve (runner.RunMode cfg) None]
                 /\ proc.ERun r ctx = proc.ERun r' Root).
  { destruct (runner.Run r' Root) as [err|]; rewrite Hc in Heq.
    - apply (unique_split main.is_Run
               (main.startup cfg None ++ main.wiring
                  ++ [proc.EResolve (runner.RunMode cfg) None])
               [proc.ERunReturned (Some err);
                proc.EStderr (Error err +:+ fmt.newline); proc.EClose r' Root;
                proc.ETelemetryClose; proc.ECancel Root; proc.EExit 1])
        in Heq as (Hpre & Hy & _); [now split| | |reflexivity];
        intros e Hin; cbn in Hin;
        repeat (destruct Hin as [<-|Hin]; [reflexivity|]); destruct Hin.
    - apply (unique_split main.is_Run
               (main.startup cfg None ++ main.wiring
                  ++ [proc.EResolve (runner.RunMode cfg) None])
               [proc.ERunReturned None; proc.EClose r' Root;
                proc.ETelemetryClose; proc.ECancel Root; proc.EExit 0])
        in Heq as (Hpre & Hy & _); [now split| | |reflexivity];
        intros e Hin; cbn in Hin;
        repeat (destruct Hin as [<-|Hin]; [reflexivity|]); destruct Hin. }
  destruct Hpre as (Hpre & [= -> ->]).
  split; [reflexivity|]. split; [reflexivity|]. split; [reflexivity|].
  split; [reflexivity|]. split; [exact Hpre|].
  split; apply in_events_of; rewrite Hpre; cbn; tauto.
Qed.

Lemma run_is_of_the_resolved_runner_witness :
  let E := sample.env 5 None None None in
  let r := sample.runner_returning None in
  let s := main.exec E (replicate 9 proc.TMain ++ [proc.TServer; proc.TServer]
                          ++ replicate 2 proc.TMain) in
  let h1 := take 12 (main.history s) in
  main.history s = h1 ++ [(proc.TMain, proc.ERun r Root)]
  /\ main.runnerFactory (main.modes E) (main.news E) (main.ParseConfig E) = Ok r
  /\ In (proc.TMain, proc.EGo proc.TServer) h1.
Proof.
  intros E r s h1.
  assert (Hh : main.history s = h1 ++ [(proc.TMain, proc.ERun r Root)])
    by reflexivity.
  split; [exact Hh|].
  destruct (run_is_of_the_resolved_runner E _ h1 [] proc.TMain r Root Hh)
    as (_ & _ & _ & Hr & _ & _ & Hgo).
  split; [exact Hr | exact Hgo].
Defined.

(** ** C5: [Close] after [Run], in every continuation *)

Section Progress.
Import proc runner main.
Variable E : Env.

(** An exit in the history has ended the process. *)
Lemma exit_is_recorded (sched : list Tid) (t : Tid) (c : Z) :
  In (t, EExit c) (history (exec E sched)) -> exited (exec E sched) <> None.
Proof.
  revert t c. apply exec_ind with (P := fun s => forall t c,
    In (t, EExit c) (history s) -> exited s <> None).
  - intros t c [].
  - intros s t IH.
    destruct (run_cases E s t)
      as [->|(e & Hnone & _ & _ & Hh & _ & Hx & _)]; [exact IH|].
    intros t' c' Hin. rewrite Hh in Hin. rewrite Hx.
    apply in_app_or in Hin as [Hin|[[= _ ->]|[]]]; [|discriminate].
    exfalso. now apply (IH t' c' Hin).
Qed.

(** While the process runs, [main] has code left. *)
Lemma main_has_code_left (sched : list Tid) :
  exited (exec E sched) = None ->
  (pc (exec E sched) TMain < length (body E TMain))%nat.
Proof.
  intros Hx.
  destruct (decide (pc (exec E sched) TMain < length (body E TMain))%nat)
    as [|Hge]; [assumption|].
  exfalso.
  pose proof (history_follows_code E sched TMain) as Hfol.
  rewrite take_ge in Hfol by lia.
  destruct (main_ends_in_exit E) as (pre & c & Htr & _).
  assert (Hin : In (TMain, EExit c) (history (exec E sched))).
  { apply in_events_of. rewrite Hfol. unfold body. rewrite Htr.
    apply in_or_app. right. now left. }
  now apply exit_is_recorded in Hin.
Qed.

(** Steps of [main] alone advance it until the process exits. *)
Lemma main_advances (sched : list Tid) (k : nat) :
  exited (exec E (sched ++ replicate k TMain)) <> None
  \/ pc (exec E (sched ++ replicate k TMain)) TMain
     = (pc (exec E sched) TMain + k)%nat.
Proof.
  induction k as [|k IH].
  - right. cbn. rewrite app_nil_r. lia.
  - rewrite replicate_S_end, app_assoc, exec_snoc.
    set (s := exec E (sched ++ replicate k TMain)) in *.
    destruct (exited s) as [c|] eqn:Hx.
    { left. unfold run. rewrite Hx. congruence. }
    destruct IH as [Habs|Hpc]; [contradiction|].
    pose proof (main_has_code_left _ Hx) as Hlt. fold s in Hlt.
    destruct (main_runs_alone E (sched ++ replicate k TMain)) as (_ & _ & Hst & _).
    fold s in Hst.
    apply lookup_lt_is_Some_2 in Hlt as [e He].
    right. unfold run. rewrite Hx, Hst, He. cbn [pc].
    rewrite fn_lookup_insert. lia.
Qed.

(** Given as many steps as its code is long, [main] reaches the exit from
    every state. *)
Lemma main_reaches_exit (sched : list Tid) :
  exists c,
    exited (exec E (sched ++ replicate (length (body E TMain)) TMain)) = Some c.
Proof.
  destruct (exited (exec E (sched ++ replicate (length (body E TMain)) TMain)))
    as [c|] eqn:Hx; [now exists c|].
  exfalso.
  destruct (main_advances sched (length (body E TMain))) as [Habs|Hpc];
    [congruence|].
  apply main_has_code_left in Hx. lia.
Qed.

(** A longer schedule extends the history. *)
Lemma history_extends (sched rest : list Tid) :
  exists h, history (exec E (sched ++ rest)) = history (exec E sched) ++ h.
Proof.
  induction rest as [|t rest IH] using rev_ind.
  - exists []. now rewrite !app_nil_r.
  - destruct IH as [h Hh]. rewrite app_assoc, exec_snoc.
    destruct (run_cases E (exec E (sched ++ rest)) t)
      as [->|(e & _ & _ & _ & Hh' & _)]; [now exists h|].
    exists (h ++ [(t, e)]). now rewrite Hh', Hh, app_assoc.
Qed.

End Progress.

(** C5. In every interleaving in which [Run] was called on a runner, the
    call is [main]'s, on the root context, and:
    - from there [main] reaches the exit when it is given its steps (as many
      as its code is long), with status 0 exactly when [Run] returns nil and
      1 exactly when it returns an error;
    - in every continuation that has reached the exit, the history has the
      return of [Run] after the call, no [Close] before that return, and
      after it exactly one [Close], on the same runner and context. *)
Theorem close_once_after_run
    (E : main.Env) (sched : list proc.Tid)
    (t : proc.Tid) (r : runner.Runner) (ctx : Context) :
  In (t, proc.ERun r ctx) (main.history (main.exec E sched)) ->
  t = proc.TMain /\ ctx = Root
  /\ (exists c,
        main.exited
          (main.exec E (sched ++ replicate (length (main.body E proc.TMain))
                                   proc.TMain)) = Some c
        /\ (c = 0 <-> runner.Run r ctx = None)
        /\ (c = 1 <-> exists err, runner.Run r ctx = Some err))
  /\ (forall rest c,
        main.exited (main.exec E (sched ++ rest)) = Some c ->
        exists h1 h2 h3,
          main.history (main.exec E (sched ++ rest))
          = h1 ++ (proc.TMain, proc.ERun r ctx)
               :: h2 ++ (proc.TMain, proc.ERunReturned (runner.Run r ctx)) :: h3
          /\ main.closes h1 = []
          /\ main.closes h2 = []
          /\ main.closes h3 = [(proc.TMain, proc.EClose r ctx)]).
Proof.
  intros Hrun.
  assert (Hlater : forall rest,
            In (t, proc.ERun r ctx) (main.history (main.exec E (sched ++ rest)))).
  { intros rest. destruct (history_extends E sched rest) as [h ->].
    apply in_or_app. now left. }
  destruct (run_is_on_root E sched t r ctx Hrun) as [Ht Hctx].
  split; [exact Ht|]. split; [exact Hctx|]. split.
  - destruct (main_reaches_exit E sched) as [c Hx]. exists c.
    split; [exact Hx|].
    destruct (close_once_at_exit E _ c t r ctx Hx (Hlater _))
      as (_ & _ & H0 & H1 & _).
    split; assumption.
  - intros rest c Hx.
    now destruct (close_once_at_exit E _ c t r ctx Hx (Hlater rest))
      as (_ & _ & _ & _ & Hsplit).
Qed.

Lemma close_once_after_run_witness :
  let sched := replicate 11 proc.TMain ++ [proc.TServer; proc.TServer] in
  let done E :=
    main.exec E (sched ++ replicate (length (main.body E proc.TMain)) proc.TMain) in
  let E0 := sample.env 1 None None None in
  let r0 := sample.runner_returning None in
  let E1 := sample.env 1 None None (Some (errorString "scrape failed")) in
  let r1 := sample.runner_returning (Some (errorString "scrape failed")) in
  (In (proc.TMain, proc.ERun r0 Root) (main.history (main.exec E0 sched))
   /\ main.exited (done E0) = Some 0
   /\ exists h1 h2 h3,
        main.history (done E0)
        = h1 ++ (proc.TMain, proc.ERun r0 Root)
             :: h2 ++ (proc.TMain, proc.ERunReturned (runner.Run r0 Root)) :: h3
        /\ main.closes h1 = [] /\ main.closes h2 = []
        /\ main.closes h3 = [(proc.TMain, proc.EClose r0 Root)])
  /\ (In (proc.TMain, proc.ERun r1 Root) (main.history (main.exec E1 sched))
      /\ main.exited (done E1) = Some 1
      /\ exists h1 h2 h3,
           main.history (done E1)
           = h1 ++ (proc.TMain, proc.ERun r1 Root)
                :: h2 ++ (proc.TMain, proc.ERunReturned (runner.Run r1 Root)) :: h3
           /\ main.closes h1 = [] /\ main.closes h2 = []
           /\ main.closes h3 = [(proc.TMain, proc.EClose r1 Root)]).
Proof.
  intros sched done E0 r0 E1 r1.
  assert (Hin0 : In (proc.TMain, proc.ERun r0 Root)
                   (main.history (main.exec E0 sched))).
  { vm_compute. do 10 right. left. reflexivity. }
  assert (Hin1 : In (proc.TMain, proc.ERun r1 Root)
                   (main.history (main.exec E1 sched))).
  { vm_compute. do 10 right. left. reflexivity. }
  split.
  - split; [exact Hin0|]. split; [reflexivity|].
    destruct (close_once_after_run E0 sched proc.TMain r0 Root Hin0)
      as (_ & _ & _ & Hall).
    exact (Hall (replicate (length (main.body E0 proc.TMain)) proc.TMain) 0
             eq_refl).
  - split; [exact Hin1|]. split; [reflexivity|].
    destruct (close_once_after_run E1 sched proc.TMain r1 Root Hin1)
      as (_ & _ & _ & Hall).
    exact (Hall (replicate (length (main.body E1 proc.TMain)) proc.TMain) 1
             eq_refl).
Defined.
